(** * Dynamic patching inventory (src/code.py): a shallow embedding

    The script pulls host records from a CMDB, drops the ignored and the
    unresolvable ones, groups the survivors by their patch group and
    prints an Ansible inventory.  This file embeds the functions of
    [src/code.py] and proves the properties stated about them.

    Modelling choices, all read off the source:
    - a host record is a JSON object whose values are strings:
      [gmap string string]; a key may be absent;
    - a Python [dict] keeps insertion order, which the inventory depends
      on: it is an association list with unique keys, assignment to an
      existing key keeps the key's position;
    - a Python [list] is a mutable object: list objects live in a store
      and dictionaries hold references to them, so that aliasing between
      the grouped input and the inventory is visible;
    - exceptions, [sys.exit] and the two output streams are explicit in
      the result of a computation;
    - a string is the byte string of its UTF-8 form; [str.lower] is the
      lower-casing of its code points with the tables of Unicode 14.0.0,
      the version CPython 3.11 carries. *)

From Stdlib Require Import ZArith String Ascii List Lia DecimalString.
From stdpp Require Import base option list strings gmap.
Import ListNotations.

Local Open Scope string_scope.
Local Open Scope list_scope.

(** ** Configuration (code.py, lines 21-24) *)

Definition IGNORE_HOSTS : list string := ["drhost01"; "backup01"].
Definition IGNORE_GROUPS : list string := ["unix_team"; "do_not_patch"].
Definition SUPPORTED_OSES : list string := ["Linux%20Red%20Hat"].
Definition MAX_HOSTS : Z := 15000.

(** ** Python strings *)

Module PyStr.

(** *** Code points

    A Python string is a sequence of code points; here it is the byte
    string of its UTF-8 form.  [decode] reads the code points back.  It
    accepts the shortest form of a code point only, so distinct byte
    strings are distinct sequences; a byte that is not part of such a
    form stands for itself, as a value above the code points. *)

Definition is_cont (n : N) : bool := (0x80 <=? n)%N && (n <=? 0xBF)%N.

Fixpoint decode (s : string) : list N :=
  match s with
  | EmptyString => []
  | String b0 s1 =>
      let n0 := N_of_ascii b0 in
      if (n0 <? 0x80)%N then n0 :: decode s1 else
      match s1 with
      | EmptyString => (0x110000 + (n0 - 0x80))%N :: decode s1
      | String b1 s2 =>
          let n1 := N_of_ascii b1 in
          if (0xC2 <=? n0)%N && (n0 <=? 0xDF)%N && is_cont n1
          then ((n0 - 0xC0) * 0x40 + (n1 - 0x80))%N :: decode s2 else
          match s2 with
          | EmptyString => (0x110000 + (n0 - 0x80))%N :: decode s1
          | String b2 s3 =>
              let n2 := N_of_ascii b2 in
              let c3 := ((n0 - 0xE0) * 0x1000 + (n1 - 0x80) * 0x40
                         + (n2 - 0x80))%N in
              if (0xE0 <=? n0)%N && (n0 <=? 0xEF)%N && is_cont n1 && is_cont n2
                 && (0x800 <=? c3)%N
              then c3 :: decode s3 else
              match s3 with
              | EmptyString => (0x110000 + (n0 - 0x80))%N :: decode s1
              | String b3 s4 =>
                  let n3 := N_of_ascii b3 in
                  let c4 := ((n0 - 0xF0) * 0x40000 + (n1 - 0x80) * 0x1000
                             + (n2 - 0x80) * 0x40 + (n3 - 0x80))%N in
                  if (0xF0 <=? n0)%N && (n0 <=? 0xF4)%N && is_cont n1
                     && is_cont n2 && is_cont n3
                     && (0x10000 <=? c4)%N && (c4 <=? 0x10FFFF)%N
                  then c4 :: decode s4
                  else (0x110000 + (n0 - 0x80))%N :: decode s1
              end
          end
      end
  end.

Definition encode_cp (c : N) : string :=
  if (c <? 0x80)%N then String (ascii_of_N c) EmptyString
  else if (c <? 0x800)%N then
    String (ascii_of_N (0xC0 + c / 0x40))
      (String (ascii_of_N (0x80 + c mod 0x40)) EmptyString)
  else if (c <? 0x10000)%N then
    String (ascii_of_N (0xE0 + c / 0x1000))
      (String (ascii_of_N (0x80 + (c / 0x40) mod 0x40))
         (String (ascii_of_N (0x80 + c mod 0x40)) EmptyString))
  else if (c <? 0x110000)%N then
    String (ascii_of_N (0xF0 + c / 0x40000))
      (String (ascii_of_N (0x80 + (c / 0x1000) mod 0x40))
         (String (ascii_of_N (0x80 + (c / 0x40) mod 0x40))
            (String (ascii_of_N (0x80 + c mod 0x40)) EmptyString)))
  else String (ascii_of_N (0x80 + (c - 0x110000) mod 0x80)) EmptyString.

Fixpoint encode (cps : list N) : string :=
  match cps with
  | [] => EmptyString
  | c :: cps' => String.append (encode_cp c) (encode cps')
  end.

(** *** [str.lower] *)

(** The code points that [str.lower] changes, except U+0130 and the
    context rule for U+03A3, both below: [(lo, hi, stride, target)]
    maps every [stride]-th code point [c] from [lo] to [hi] to
    [target + (c - lo)].  Unicode 14.0.0, as CPython 3.11 carries it.
    The first entry is the range A-Z, the entries after it are in
    [lower_table_tail]. *)
Definition lower_table_tail : list (N * N * N * N) :=
  [(0xC0, 0xD6, 0x1, 0xE0); (0xD8, 0xDE, 0x1, 0xF8); (0x100, 0x12E, 0x2, 0x101);
   (0x132, 0x136, 0x2, 0x133); (0x139, 0x147, 0x2, 0x13A); (0x14A, 0x176, 0x2, 0x14B);
   (0x178, 0x178, 0x1, 0xFF); (0x179, 0x17D, 0x2, 0x17A); (0x181, 0x181, 0x1, 0x253);
   (0x182, 0x184, 0x2, 0x183); (0x186, 0x186, 0x1, 0x254); (0x187, 0x187, 0x1, 0x188);
   (0x189, 0x18A, 0x1, 0x256); (0x18B, 0x18B, 0x1, 0x18C); (0x18E, 0x18E, 0x1, 0x1DD);
   (0x18F, 0x18F, 0x1, 0x259); (0x190, 0x190, 0x1, 0x25B); (0x191, 0x191, 0x1, 0x192);
   (0x193, 0x193, 0x1, 0x260); (0x194, 0x194, 0x1, 0x263); (0x196, 0x196, 0x1, 0x269);
   (0x197, 0x197, 0x1, 0x268); (0x198, 0x198, 0x1, 0x199); (0x19C, 0x19C, 0x1, 0x26F);
   (0x19D, 0x19D, 0x1, 0x272); (0x19F, 0x19F, 0x1, 0x275); (0x1A0, 0x1A4, 0x2, 0x1A1);
   (0x1A6, 0x1A6, 0x1, 0x280); (0x1A7, 0x1A7, 0x1, 0x1A8); (0x1A9, 0x1A9, 0x1, 0x283);
   (0x1AC, 0x1AC, 0x1, 0x1AD); (0x1AE, 0x1AE, 0x1, 0x288); (0x1AF, 0x1AF, 0x1, 0x1B0);
   (0x1B1, 0x1B2, 0x1, 0x28A); (0x1B3, 0x1B5, 0x2, 0x1B4); (0x1B7, 0x1B7, 0x1, 0x292);
   (0x1B8, 0x1B8, 0x1, 0x1B9); (0x1BC, 0x1BC, 0x1, 0x1BD); (0x1C4, 0x1C4, 0x1, 0x1C6);
   (0x1C5, 0x1C5, 0x1, 0x1C6); (0x1C7, 0x1C7, 0x1, 0x1C9); (0x1C8, 0x1C8, 0x1, 0x1C9);
   (0x1CA, 0x1CA, 0x1, 0x1CC); (0x1CB, 0x1DB, 0x2, 0x1CC); (0x1DE, 0x1EE, 0x2, 0x1DF);
   (0x1F1, 0x1F1, 0x1, 0x1F3); (0x1F2, 0x1F4, 0x2, 0x1F3); (0x1F6, 0x1F6, 0x1, 0x195);
   (0x1F7, 0x1F7, 0x1, 0x1BF); (0x1F8, 0x21E, 0x2, 0x1F9); (0x220, 0x220, 0x1, 0x19E);
   (0x222, 0x232, 0x2, 0x223); (0x23A, 0x23A, 0x1, 0x2C65); (0x23B, 0x23B, 0x1, 0x23C);
   (0x23D, 0x23D, 0x1, 0x19A); (0x23E, 0x23E, 0x1, 0x2C66); (0x241, 0x241, 0x1, 0x242);
   (0x243, 0x243, 0x1, 0x180); (0x244, 0x244, 0x1, 0x289); (0x245, 0x245, 0x1, 0x28C);
   (0x246, 0x24E, 0x2, 0x247); (0x370, 0x372, 0x2, 0x371); (0x376, 0x376, 0x1, 0x377);
   (0x37F, 0x37F, 0x1, 0x3F3); (0x386, 0x386, 0x1, 0x3AC); (0x388, 0x38A, 0x1, 0x3AD);
   (0x38C, 0x38C, 0x1, 0x3CC); (0x38E, 0x38F, 0x1, 0x3CD); (0x391, 0x3A1, 0x1, 0x3B1);
   (0x3A3, 0x3AB, 0x1, 0x3C3); (0x3CF, 0x3CF, 0x1, 0x3D7); (0x3D8, 0x3EE, 0x2, 0x3D9);
   (0x3F4, 0x3F4, 0x1, 0x3B8); (0x3F7, 0x3F7, 0x1, 0x3F8); (0x3F9, 0x3F9, 0x1, 0x3F2);
   (0x3FA, 0x3FA, 0x1, 0x3FB); (0x3FD, 0x3FF, 0x1, 0x37B); (0x400, 0x40F, 0x1, 0x450);
   (0x410, 0x42F, 0x1, 0x430); (0x460, 0x480, 0x2, 0x461); (0x48A, 0x4BE, 0x2, 0x48B);
   (0x4C0, 0x4C0, 0x1, 0x4CF); (0x4C1, 0x4CD, 0x2, 0x4C2); (0x4D0, 0x52E, 0x2, 0x4D1);
   (0x531, 0x556, 0x1, 0x561); (0x10A0, 0x10C5, 0x1, 0x2D00); (0x10C7, 0x10C7, 0x1, 0x2D27);
   (0x10CD, 0x10CD, 0x1, 0x2D2D); (0x13A0, 0x13EF, 0x1, 0xAB70); (0x13F0, 0x13F5, 0x1, 0x13F8);
   (0x1C90, 0x1CBA, 0x1, 0x10D0); (0x1CBD, 0x1CBF, 0x1, 0x10FD); (0x1E00, 0x1E94, 0x2, 0x1E01);
   (0x1E9E, 0x1E9E, 0x1, 0xDF); (0x1EA0, 0x1EFE, 0x2, 0x1EA1); (0x1F08, 0x1F0F, 0x1, 0x1F00);
   (0x1F18, 0x1F1D, 0x1, 0x1F10); (0x1F28, 0x1F2F, 0x1, 0x1F20); (0x1F38, 0x1F3F, 0x1, 0x1F30);
   (0x1F48, 0x1F4D, 0x1, 0x1F40); (0x1F59, 0x1F5F, 0x2, 0x1F51); (0x1F68, 0x1F6F, 0x1, 0x1F60);
   (0x1F88, 0x1F8F, 0x1, 0x1F80); (0x1F98, 0x1F9F, 0x1, 0x1F90); (0x1FA8, 0x1FAF, 0x1, 0x1FA0);
   (0x1FB8, 0x1FB9, 0x1, 0x1FB0); (0x1FBA, 0x1FBB, 0x1, 0x1F70); (0x1FBC, 0x1FBC, 0x1, 0x1FB3);
   (0x1FC8, 0x1FCB, 0x1, 0x1F72); (0x1FCC, 0x1FCC, 0x1, 0x1FC3); (0x1FD8, 0x1FD9, 0x1, 0x1FD0);
   (0x1FDA, 0x1FDB, 0x1, 0x1F76); (0x1FE8, 0x1FE9, 0x1, 0x1FE0); (0x1FEA, 0x1FEB, 0x1, 0x1F7A);
   (0x1FEC, 0x1FEC, 0x1, 0x1FE5); (0x1FF8, 0x1FF9, 0x1, 0x1F78); (0x1FFA, 0x1FFB, 0x1, 0x1F7C);
   (0x1FFC, 0x1FFC, 0x1, 0x1FF3); (0x2126, 0x2126, 0x1, 0x3C9); (0x212A, 0x212A, 0x1, 0x6B);
   (0x212B, 0x212B, 0x1, 0xE5); (0x2132, 0x2132, 0x1, 0x214E); (0x2160, 0x216F, 0x1, 0x2170);
   (0x2183, 0x2183, 0x1, 0x2184); (0x24B6, 0x24CF, 0x1, 0x24D0); (0x2C00, 0x2C2F, 0x1, 0x2C30);
   (0x2C60, 0x2C60, 0x1, 0x2C61); (0x2C62, 0x2C62, 0x1, 0x26B); (0x2C63, 0x2C63, 0x1, 0x1D7D);
   (0x2C64, 0x2C64, 0x1, 0x27D); (0x2C67, 0x2C6B, 0x2, 0x2C68); (0x2C6D, 0x2C6D, 0x1, 0x251);
   (0x2C6E, 0x2C6E, 0x1, 0x271); (0x2C6F, 0x2C6F, 0x1, 0x250); (0x2C70, 0x2C70, 0x1, 0x252);
   (0x2C72, 0x2C72, 0x1, 0x2C73); (0x2C75, 0x2C75, 0x1, 0x2C76); (0x2C7E, 0x2C7F, 0x1, 0x23F);
   (0x2C80, 0x2CE2, 0x2, 0x2C81); (0x2CEB, 0x2CED, 0x2, 0x2CEC); (0x2CF2, 0x2CF2, 0x1, 0x2CF3);
   (0xA640, 0xA66C, 0x2, 0xA641); (0xA680, 0xA69A, 0x2, 0xA681); (0xA722, 0xA72E, 0x2, 0xA723);
   (0xA732, 0xA76E, 0x2, 0xA733); (0xA779, 0xA77B, 0x2, 0xA77A); (0xA77D, 0xA77D, 0x1, 0x1D79);
   (0xA77E, 0xA786, 0x2, 0xA77F); (0xA78B, 0xA78B, 0x1, 0xA78C); (0xA78D, 0xA78D, 0x1, 0x265);
   (0xA790, 0xA792, 0x2, 0xA791); (0xA796, 0xA7A8, 0x2, 0xA797); (0xA7AA, 0xA7AA, 0x1, 0x266);
   (0xA7AB, 0xA7AB, 0x1, 0x25C); (0xA7AC, 0xA7AC, 0x1, 0x261); (0xA7AD, 0xA7AD, 0x1, 0x26C);
   (0xA7AE, 0xA7AE, 0x1, 0x26A); (0xA7B0, 0xA7B0, 0x1, 0x29E); (0xA7B1, 0xA7B1, 0x1, 0x287);
   (0xA7B2, 0xA7B2, 0x1, 0x29D); (0xA7B3, 0xA7B3, 0x1, 0xAB53); (0xA7B4, 0xA7C2, 0x2, 0xA7B5);
   (0xA7C4, 0xA7C4, 0x1, 0xA794); (0xA7C5, 0xA7C5, 0x1, 0x282); (0xA7C6, 0xA7C6, 0x1, 0x1D8E);
   (0xA7C7, 0xA7C9, 0x2, 0xA7C8); (0xA7D0, 0xA7D0, 0x1, 0xA7D1); (0xA7D6, 0xA7D8, 0x2, 0xA7D7);
   (0xA7F5, 0xA7F5, 0x1, 0xA7F6); (0xFF21, 0xFF3A, 0x1, 0xFF41); (0x10400, 0x10427, 0x1, 0x10428);
   (0x104B0, 0x104D3, 0x1, 0x104D8); (0x10570, 0x10594, 0x2, 0x10597); (0x10571, 0x10579, 0x2, 0x10598);
   (0x1057D, 0x10589, 0x2, 0x105A4); (0x1058D, 0x10591, 0x2, 0x105B4); (0x10595, 0x10595, 0x1, 0x105BC);
   (0x10C80, 0x10CB2, 0x1, 0x10CC0); (0x118A0, 0x118BF, 0x1, 0x118C0); (0x16E40, 0x16E5F, 0x1, 0x16E60);
   (0x1E900, 0x1E921, 0x1, 0x1E922)]%N.

Definition lower_table : list (N * N * N * N) :=
  (0x41, 0x5A, 1, 0x61)%N :: lower_table_tail.

(** The code points with the property Case_Ignorable, as ranges. *)
Definition case_ignorable_ranges : list (N * N) :=
  [(0x27, 0x27); (0x2E, 0x2E); (0x3A, 0x3A); (0x5E, 0x5E);
   (0x60, 0x60); (0xA8, 0xA8); (0xAD, 0xAD); (0xAF, 0xAF);
   (0xB4, 0xB4); (0xB7, 0xB8); (0x2B0, 0x36F); (0x374, 0x375);
   (0x37A, 0x37A); (0x384, 0x385); (0x387, 0x387); (0x483, 0x489);
   (0x559, 0x559); (0x55F, 0x55F); (0x591, 0x5BD); (0x5BF, 0x5BF);
   (0x5C1, 0x5C2); (0x5C4, 0x5C5); (0x5C7, 0x5C7); (0x5F4, 0x5F4);
   (0x600, 0x605); (0x610, 0x61A); (0x61C, 0x61C); (0x640, 0x640);
   (0x64B, 0x65F); (0x670, 0x670); (0x6D6, 0x6DD); (0x6DF, 0x6E8);
   (0x6EA, 0x6ED); (0x70F, 0x70F); (0x711, 0x711); (0x730, 0x74A);
   (0x7A6, 0x7B0); (0x7EB, 0x7F5); (0x7FA, 0x7FA); (0x7FD, 0x7FD);
   (0x816, 0x82D); (0x859, 0x85B); (0x888, 0x888); (0x890, 0x891);
   (0x898, 0x89F); (0x8C9, 0x902); (0x93A, 0x93A); (0x93C, 0x93C);
   (0x941, 0x948); (0x94D, 0x94D); (0x951, 0x957); (0x962, 0x963);
   (0x971, 0x971); (0x981, 0x981); (0x9BC, 0x9BC); (0x9C1, 0x9C4);
   (0x9CD, 0x9CD); (0x9E2, 0x9E3); (0x9FE, 0x9FE); (0xA01, 0xA02);
   (0xA3C, 0xA3C); (0xA41, 0xA42); (0xA47, 0xA48); (0xA4B, 0xA4D);
   (0xA51, 0xA51); (0xA70, 0xA71); (0xA75, 0xA75); (0xA81, 0xA82);
   (0xABC, 0xABC); (0xAC1, 0xAC5); (0xAC7, 0xAC8); (0xACD, 0xACD);
   (0xAE2, 0xAE3); (0xAFA, 0xAFF); (0xB01, 0xB01); (0xB3C, 0xB3C);
   (0xB3F, 0xB3F); (0xB41, 0xB44); (0xB4D, 0xB4D); (0xB55, 0xB56);
   (0xB62, 0xB63); (0xB82, 0xB82); (0xBC0, 0xBC0); (0xBCD, 0xBCD);
   (0xC00, 0xC00); (0xC04, 0xC04); (0xC3C, 0xC3C); (0xC3E, 0xC40);
   (0xC46, 0xC48); (0xC4A, 0xC4D); (0xC55, 0xC56); (0xC62, 0xC63);
   (0xC81, 0xC81); (0xCBC, 0xCBC); (0xCBF, 0xCBF); (0xCC6, 0xCC6);
   (0xCCC, 0xCCD); (0xCE2, 0xCE3); (0xD00, 0xD01); (0xD3B, 0xD3C);
   (0xD41, 0xD44); (0xD4D, 0xD4D); (0xD62, 0xD63); (0xD81, 0xD81);
   (0xDCA, 0xDCA); (0xDD2, 0xDD4); (0xDD6, 0xDD6); (0xE31, 0xE31);
   (0xE34, 0xE3A); (0xE46, 0xE4E); (0xEB1, 0xEB1); (0xEB4, 0xEBC);
   (0xEC6, 0xEC6); (0xEC8, 0xECD); (0xF18, 0xF19); (0xF35, 0xF35);
   (0xF37, 0xF37); (0xF39, 0xF39); (0xF71, 0xF7E); (0xF80, 0xF84);
   (0xF86, 0xF87); (0xF8D, 0xF97); (0xF99, 0xFBC); (0xFC6, 0xFC6);
   (0x102D, 0x1030); (0x1032, 0x1037); (0x1039, 0x103A); (0x103D, 0x103E);
   (0x1058, 0x1059); (0x105E, 0x1060); (0x1071, 0x1074); (0x1082, 0x1082);
   (0x1085, 0x1086); (0x108D, 0x108D); (0x109D, 0x109D); (0x10FC, 0x10FC);
   (0x135D, 0x135F); (0x1712, 0x1714); (0x1732, 0x1733); (0x1752, 0x1753);
   (0x1772, 0x1773); (0x17B4, 0x17B5); (0x17B7, 0x17BD); (0x17C6, 0x17C6);
   (0x17C9, 0x17D3); (0x17D7, 0x17D7); (0x17DD, 0x17DD); (0x180B, 0x180F);
   (0x1843, 0x1843); (0x1885, 0x1886); (0x18A9, 0x18A9); (0x1920, 0x1922);
   (0x1927, 0x1928); (0x1932, 0x1932); (0x1939, 0x193B); (0x1A17, 0x1A18);
   (0x1A1B, 0x1A1B); (0x1A56, 0x1A56); (0x1A58, 0x1A5E); (0x1A60, 0x1A60);
   (0x1A62, 0x1A62); (0x1A65, 0x1A6C); (0x1A73, 0x1A7C); (0x1A7F, 0x1A7F);
   (0x1AA7, 0x1AA7); (0x1AB0, 0x1ACE); (0x1B00, 0x1B03); (0x1B34, 0x1B34);
   (0x1B36, 0x1B3A); (0x1B3C, 0x1B3C); (0x1B42, 0x1B42); (0x1B6B, 0x1B73);
   (0x1B80, 0x1B81); (0x1BA2, 0x1BA5); (0x1BA8, 0x1BA9); (0x1BAB, 0x1BAD);
   (0x1BE6, 0x1BE6); (0x1BE8, 0x1BE9); (0x1BED, 0x1BED); (0x1BEF, 0x1BF1);
   (0x1C2C, 0x1C33); (0x1C36, 0x1C37); (0x1C78, 0x1C7D); (0x1CD0, 0x1CD2);
   (0x1CD4, 0x1CE0); (0x1CE2, 0x1CE8); (0x1CED, 0x1CED); (0x1CF4, 0x1CF4);
   (0x1CF8, 0x1CF9); (0x1D2C, 0x1D6A); (0x1D78, 0x1D78); (0x1D9B, 0x1DFF);
   (0x1FBD, 0x1FBD); (0x1FBF, 0x1FC1); (0x1FCD, 0x1FCF); (0x1FDD, 0x1FDF);
   (0x1FED, 0x1FEF); (0x1FFD, 0x1FFE); (0x200B, 0x200F); (0x2018, 0x2019);
   (0x2024, 0x2024); (0x2027, 0x2027); (0x202A, 0x202E); (0x2060, 0x2064);
   (0x2066, 0x206F); (0x2071, 0x2071); (0x207F, 0x207F); (0x2090, 0x209C);
   (0x20D0, 0x20F0); (0x2C7C, 0x2C7D); (0x2CEF, 0x2CF1); (0x2D6F, 0x2D6F);
   (0x2D7F, 0x2D7F); (0x2DE0, 0x2DFF); (0x2E2F, 0x2E2F); (0x3005, 0x3005);
   (0x302A, 0x302D); (0x3031, 0x3035); (0x303B, 0x303B); (0x3099, 0x309E);
   (0x30FC, 0x30FE); (0xA015, 0xA015); (0xA4F8, 0xA4FD); (0xA60C, 0xA60C);
   (0xA66F, 0xA672); (0xA674, 0xA67D); (0xA67F, 0xA67F); (0xA69C, 0xA69F);
   (0xA6F0, 0xA6F1); (0xA700, 0xA721); (0xA770, 0xA770); (0xA788, 0xA78A);
   (0xA7F2, 0xA7F4); (0xA7F8, 0xA7F9); (0xA802, 0xA802); (0xA806, 0xA806);
   (0xA80B, 0xA80B); (0xA825, 0xA826); (0xA82C, 0xA82C); (0xA8C4, 0xA8C5);
   (0xA8E0, 0xA8F1); (0xA8FF, 0xA8FF); (0xA926, 0xA92D); (0xA947, 0xA951);
   (0xA980, 0xA982); (0xA9B3, 0xA9B3); (0xA9B6, 0xA9B9); (0xA9BC, 0xA9BD);
   (0xA9CF, 0xA9CF); (0xA9E5, 0xA9E6); (0xAA29, 0xAA2E); (0xAA31, 0xAA32);
   (0xAA35, 0xAA36); (0xAA43, 0xAA43); (0xAA4C, 0xAA4C); (0xAA70, 0xAA70);
   (0xAA7C, 0xAA7C); (0xAAB0, 0xAAB0); (0xAAB2, 0xAAB4); (0xAAB7, 0xAAB8);
   (0xAABE, 0xAABF); (0xAAC1, 0xAAC1); (0xAADD, 0xAADD); (0xAAEC, 0xAAED);
   (0xAAF3, 0xAAF4); (0xAAF6, 0xAAF6); (0xAB5B, 0xAB5F); (0xAB69, 0xAB6B);
   (0xABE5, 0xABE5); (0xABE8, 0xABE8); (0xABED, 0xABED); (0xFB1E, 0xFB1E);
   (0xFBB2, 0xFBC2); (0xFE00, 0xFE0F); (0xFE13, 0xFE13); (0xFE20, 0xFE2F);
   (0xFE52, 0xFE52); (0xFE55, 0xFE55); (0xFEFF, 0xFEFF); (0xFF07, 0xFF07);
   (0xFF0E, 0xFF0E); (0xFF1A, 0xFF1A); (0xFF3E, 0xFF3E); (0xFF40, 0xFF40);
   (0xFF70, 0xFF70); (0xFF9E, 0xFF9F); (0xFFE3, 0xFFE3); (0xFFF9, 0xFFFB);
   (0x101FD, 0x101FD); (0x102E0, 0x102E0); (0x10376, 0x1037A); (0x10780, 0x10785);
   (0x10787, 0x107B0); (0x107B2, 0x107BA); (0x10A01, 0x10A03); (0x10A05, 0x10A06);
   (0x10A0C, 0x10A0F); (0x10A38, 0x10A3A); (0x10A3F, 0x10A3F); (0x10AE5, 0x10AE6);
   (0x10D24, 0x10D27); (0x10EAB, 0x10EAC); (0x10F46, 0x10F50); (0x10F82, 0x10F85);
   (0x11001, 0x11001); (0x11038, 0x11046); (0x11070, 0x11070); (0x11073, 0x11074);
   (0x1107F, 0x11081); (0x110B3, 0x110B6); (0x110B9, 0x110BA); (0x110BD, 0x110BD);
   (0x110C2, 0x110C2); (0x110CD, 0x110CD); (0x11100, 0x11102); (0x11127, 0x1112B);
   (0x1112D, 0x11134); (0x11173, 0x11173); (0x11180, 0x11181); (0x111B6, 0x111BE);
   (0x111C9, 0x111CC); (0x111CF, 0x111CF); (0x1122F, 0x11231); (0x11234, 0x11234);
   (0x11236, 0x11237); (0x1123E, 0x1123E); (0x112DF, 0x112DF); (0x112E3, 0x112EA);
   (0x11300, 0x11301); (0x1133B, 0x1133C); (0x11340, 0x11340); (0x11366, 0x1136C);
   (0x11370, 0x11374); (0x11438, 0x1143F); (0x11442, 0x11444); (0x11446, 0x11446);
   (0x1145E, 0x1145E); (0x114B3, 0x114B8); (0x114BA, 0x114BA); (0x114BF, 0x114C0);
   (0x114C2, 0x114C3); (0x115B2, 0x115B5); (0x115BC, 0x115BD); (0x115BF, 0x115C0);
   (0x115DC, 0x115DD); (0x11633, 0x1163A); (0x1163D, 0x1163D); (0x1163F, 0x11640);
   (0x116AB, 0x116AB); (0x116AD, 0x116AD); (0x116B0, 0x116B5); (0x116B7, 0x116B7);
   (0x1171D, 0x1171F); (0x11722, 0x11725); (0x11727, 0x1172B); (0x1182F, 0x11837);
   (0x11839, 0x1183A); (0x1193B, 0x1193C); (0x1193E, 0x1193E); (0x11943, 0x11943);
   (0x119D4, 0x119D7); (0x119DA, 0x119DB); (0x119E0, 0x119E0); (0x11A01, 0x11A0A);
   (0x11A33, 0x11A38); (0x11A3B, 0x11A3E); (0x11A47, 0x11A47); (0x11A51, 0x11A56);
   (0x11A59, 0x11A5B); (0x11A8A, 0x11A96); (0x11A98, 0x11A99); (0x11C30, 0x11C36);
   (0x11C38, 0x11C3D); (0x11C3F, 0x11C3F); (0x11C92, 0x11CA7); (0x11CAA, 0x11CB0);
   (0x11CB2, 0x11CB3); (0x11CB5, 0x11CB6); (0x11D31, 0x11D36); (0x11D3A, 0x11D3A);
   (0x11D3C, 0x11D3D); (0x11D3F, 0x11D45); (0x11D47, 0x11D47); (0x11D90, 0x11D91);
   (0x11D95, 0x11D95); (0x11D97, 0x11D97); (0x11EF3, 0x11EF4); (0x13430, 0x13438);
   (0x16AF0, 0x16AF4); (0x16B30, 0x16B36); (0x16B40, 0x16B43); (0x16F4F, 0x16F4F);
   (0x16F8F, 0x16F9F); (0x16FE0, 0x16FE1); (0x16FE3, 0x16FE4); (0x1AFF0, 0x1AFF3);
   (0x1AFF5, 0x1AFFB); (0x1AFFD, 0x1AFFE); (0x1BC9D, 0x1BC9E); (0x1BCA0, 0x1BCA3);
   (0x1CF00, 0x1CF2D); (0x1CF30, 0x1CF46); (0x1D167, 0x1D169); (0x1D173, 0x1D182);
   (0x1D185, 0x1D18B); (0x1D1AA, 0x1D1AD); (0x1D242, 0x1D244); (0x1DA00, 0x1DA36);
   (0x1DA3B, 0x1DA6C); (0x1DA75, 0x1DA75); (0x1DA84, 0x1DA84); (0x1DA9B, 0x1DA9F);
   (0x1DAA1, 0x1DAAF); (0x1E000, 0x1E006); (0x1E008, 0x1E018); (0x1E01B, 0x1E021);
   (0x1E023, 0x1E024); (0x1E026, 0x1E02A); (0x1E130, 0x1E13D); (0x1E2AE, 0x1E2AE);
   (0x1E2EC, 0x1E2EF); (0x1E8D0, 0x1E8D6); (0x1E944, 0x1E94B); (0x1F3FB, 0x1F3FF);
   (0xE0001, 0xE0001); (0xE0020, 0xE007F); (0xE0100, 0xE01EF)]%N.

(** The code points with the property Cased, as ranges. *)
Definition cased_ranges : list (N * N) :=
  [(0x41, 0x5A); (0x61, 0x7A); (0xAA, 0xAA); (0xB5, 0xB5);
   (0xBA, 0xBA); (0xC0, 0xD6); (0xD8, 0xF6); (0xF8, 0x1BA);
   (0x1BC, 0x1BF); (0x1C4, 0x293); (0x295, 0x2B8); (0x2C0, 0x2C1);
   (0x2E0, 0x2E4); (0x345, 0x345); (0x370, 0x373); (0x376, 0x377);
   (0x37A, 0x37D); (0x37F, 0x37F); (0x386, 0x386); (0x388, 0x38A);
   (0x38C, 0x38C); (0x38E, 0x3A1); (0x3A3, 0x3F5); (0x3F7, 0x481);
   (0x48A, 0x52F); (0x531, 0x556); (0x560, 0x588); (0x10A0, 0x10C5);
   (0x10C7, 0x10C7); (0x10CD, 0x10CD); (0x10D0, 0x10FA); (0x10FD, 0x10FF);
   (0x13A0, 0x13F5); (0x13F8, 0x13FD); (0x1C80, 0x1C88); (0x1C90, 0x1CBA);
   (0x1CBD, 0x1CBF); (0x1D00, 0x1DBF); (0x1E00, 0x1F15); (0x1F18, 0x1F1D);
   (0x1F20, 0x1F45); (0x1F48, 0x1F4D); (0x1F50, 0x1F57); (0x1F59, 0x1F59);
   (0x1F5B, 0x1F5B); (0x1F5D, 0x1F5D); (0x1F5F, 0x1F7D); (0x1F80, 0x1FB4);
   (0x1FB6, 0x1FBC); (0x1FBE, 0x1FBE); (0x1FC2, 0x1FC4); (0x1FC6, 0x1FCC);
   (0x1FD0, 0x1FD3); (0x1FD6, 0x1FDB); (0x1FE0, 0x1FEC); (0x1FF2, 0x1FF4);
   (0x1FF6, 0x1FFC); (0x2071, 0x2071); (0x207F, 0x207F); (0x2090, 0x209C);
   (0x2102, 0x2102); (0x2107, 0x2107); (0x210A, 0x2113); (0x2115, 0x2115);
   (0x2119, 0x211D); (0x2124, 0x2124); (0x2126, 0x2126); (0x2128, 0x2128);
   (0x212A, 0x212D); (0x212F, 0x2134); (0x2139, 0x2139); (0x213C, 0x213F);
   (0x2145, 0x2149); (0x214E, 0x214E); (0x2160, 0x217F); (0x2183, 0x2184);
   (0x24B6, 0x24E9); (0x2C00, 0x2CE4); (0x2CEB, 0x2CEE); (0x2CF2, 0x2CF3);
   (0x2D00, 0x2D25); (0x2D27, 0x2D27); (0x2D2D, 0x2D2D); (0xA640, 0xA66D);
   (0xA680, 0xA69D); (0xA722, 0xA787); (0xA78B, 0xA78E); (0xA790, 0xA7CA);
   (0xA7D0, 0xA7D1); (0xA7D3, 0xA7D3); (0xA7D5, 0xA7D9); (0xA7F5, 0xA7F6);
   (0xA7F8, 0xA7FA); (0xAB30, 0xAB5A); (0xAB5C, 0xAB68); (0xAB70, 0xABBF);
   (0xFB00, 0xFB06); (0xFB13, 0xFB17); (0xFF21, 0xFF3A); (0xFF41, 0xFF5A);
   (0x10400, 0x1044F); (0x104B0, 0x104D3); (0x104D8, 0x104FB); (0x10570, 0x1057A);
   (0x1057C, 0x1058A); (0x1058C, 0x10592); (0x10594, 0x10595); (0x10597, 0x105A1);
   (0x105A3, 0x105B1); (0x105B3, 0x105B9); (0x105BB, 0x105BC); (0x10780, 0x10780);
   (0x10783, 0x10785); (0x10787, 0x107B0); (0x107B2, 0x107BA); (0x10C80, 0x10CB2);
   (0x10CC0, 0x10CF2); (0x118A0, 0x118DF); (0x16E40, 0x16E7F); (0x1D400, 0x1D454);
   (0x1D456, 0x1D49C); (0x1D49E, 0x1D49F); (0x1D4A2, 0x1D4A2); (0x1D4A5, 0x1D4A6);
   (0x1D4A9, 0x1D4AC); (0x1D4AE, 0x1D4B9); (0x1D4BB, 0x1D4BB); (0x1D4BD, 0x1D4C3);
   (0x1D4C5, 0x1D505); (0x1D507, 0x1D50A); (0x1D50D, 0x1D514); (0x1D516, 0x1D51C);
   (0x1D51E, 0x1D539); (0x1D53B, 0x1D53E); (0x1D540, 0x1D544); (0x1D546, 0x1D546);
   (0x1D54A, 0x1D550); (0x1D552, 0x1D6A5); (0x1D6A8, 0x1D6C0); (0x1D6C2, 0x1D6DA);
   (0x1D6DC, 0x1D6FA); (0x1D6FC, 0x1D714); (0x1D716, 0x1D734); (0x1D736, 0x1D74E);
   (0x1D750, 0x1D76E); (0x1D770, 0x1D788); (0x1D78A, 0x1D7A8); (0x1D7AA, 0x1D7C2);
   (0x1D7C4, 0x1D7CB); (0x1DF00, 0x1DF09); (0x1DF0B, 0x1DF1E); (0x1E900, 0x1E943);
   (0x1F130, 0x1F149); (0x1F150, 0x1F169); (0x1F170, 0x1F189)]%N.

Definition in_entry (e : N * N * N * N) (c : N) : bool :=
  let '(lo, hi, stride, _) := e in
  (lo <=? c)%N && (c <=? hi)%N && ((c - lo) mod stride =? 0)%N.

Definition image (e : N * N * N * N) (c : N) : N :=
  let '(lo, _, _, target) := e in (target + (c - lo))%N.

Fixpoint lookup_lower (t : list (N * N * N * N)) (c : N) : option N :=
  match t with
  | [] => None
  | e :: t' => if in_entry e c then Some (image e c) else lookup_lower t' c
  end.

(** The lower case of one code point, out of context: U+0130 gives two
    code points, every other code point one. *)
Definition to_lower_full (c : N) : list N :=
  if (c =? 0x130)%N then [0x69; 0x307]%N
  else [match lookup_lower lower_table c with Some y => y | None => c end].

Fixpoint in_ranges (rs : list (N * N)) (c : N) : bool :=
  match rs with
  | [] => false
  | (lo, hi) :: rs' => ((lo <=? c)%N && (c <=? hi)%N) || in_ranges rs' c
  end.

Definition is_case_ignorable (c : N) : bool := in_ranges case_ignorable_ranges c.
Definition is_cased (c : N) : bool := in_ranges cased_ranges c.

(** After case-ignorable code points, a cased one follows. *)
Fixpoint followed_by_cased (cps : list N) : bool :=
  match cps with
  | [] => false
  | c :: cps' =>
      if is_case_ignorable c then followed_by_cased cps' else is_cased c
  end.

(** Lower-casing of a sequence.  U+03A3 becomes the final sigma U+03C2
    when a cased code point precedes it and none follows, case-ignorable
    code points apart, and U+03C3 otherwise; [prev_cased] tells whether
    a cased code point precedes. *)
Fixpoint lower_cps (prev_cased : bool) (cps : list N) : list N :=
  match cps with
  | [] => []
  | c :: cps' =>
      (if (c =? 0x3A3)%N
       then [if prev_cased && negb (followed_by_cased cps')
             then 0x3C2%N else 0x3C3%N]
       else to_lower_full c)
      ++ lower_cps (if is_case_ignorable c then prev_cased else is_cased c) cps'
  end.

(** [s.lower()] *)
Definition lower (s : string) : string := encode (lower_cps false (decode s)).

(** [c in s] for a one-character needle [c]. *)
Fixpoint contains (c : ascii) (s : string) : bool :=
  match s with
  | EmptyString => false
  | String d s' => if Ascii.eqb c d then true else contains c s'
  end.

(** [x in l] for a list of strings [l]: comparison with [==]. *)
Fixpoint mem (x : string) (l : list string) : bool :=
  match l with
  | [] => false
  | y :: l' => if String.eqb x y then true else mem x l'
  end.

(** Truth value of a string: the empty string is falsy. *)
Definition truthy (s : string) : bool :=
  match s with
  | EmptyString => false
  | String _ _ => true
  end.

(** [str(n)] for an integer. *)
Definition of_Z (n : Z) : string := NilZero.string_of_int (Z.to_int n).

End PyStr.

(** ** Host records *)

(** A raw record as decoded from the CMDB answer. *)
Abbreviation HostRecord := (gmap string string).

(** [host.get(key, "")] *)
Definition get_or_empty (host : HostRecord) (key : string) : string :=
  default "" (host !! key).

(** ** Record filter (code.py, lines 63-67) *)

Definition ignore_host (host : HostRecord) : bool :=
  let hname := PyStr.lower (get_or_empty host "name") in
  let group := PyStr.lower (get_or_empty host "u_patching_group") in
  PyStr.mem hname IGNORE_HOSTS || PyStr.mem group IGNORE_GROUPS
  || negb (PyStr.truthy group).

(** The group field of a record is empty or absent. *)
Definition group_empty_or_absent (host : HostRecord) : Prop :=
  host !! "u_patching_group" = None \/ host !! "u_patching_group" = Some "".

(** ** Exceptions *)

(** The subclasses of [Exception] the program can meet.  [SystemExit] is
    not one of them and is a separate outcome below. *)
Inductive exn : Type :=
| KeyError (key : string)
| TypeError
| Failure (msg : string).

(** ** Dictionaries: insertion-ordered, unique keys *)

Abbreviation dict V := (list (string * V)).

(** [d.get(k)] *)
Fixpoint dict_get {V : Type} (k : string) (d : dict V) : option V :=
  match d with
  | [] => None
  | (k', v) :: d' => if String.eqb k k' then Some v else dict_get k d'
  end.

(** [d[k] = v]: an existing key keeps its position, a new key goes last. *)
Fixpoint dict_set {V : Type} (k : string) (v : V) (d : dict V) : dict V :=
  match d with
  | [] => [(k, v)]
  | (k', v') :: d' =>
      if String.eqb k k' then (k', v) :: d' else (k', v') :: dict_set k v d'
  end.

(** [list(d.keys())] *)
Definition dict_keys {V : Type} (d : dict V) : list string := map fst d.

(** ** The store of list objects *)

Abbreviation loc := nat.
Abbreviation Heap := (list (list string)).

(** A new list object [v]. *)
Definition alloc (v : list string) (hp : Heap) : loc * Heap :=
  (length hp, hp ++ [v]).

(** The current contents of the list object at [l]. *)
Definition deref (hp : Heap) (l : loc) : list string := default [] (hp !! l).

(** [l.append(x)] *)
Definition list_append (l : loc) (x : string) (hp : Heap) : Heap :=
  <[l := deref hp l ++ [x]]> hp.

(** [l.extend(src)]: the elements of [src] as they are when the call
    starts are added to [l], also when [src] is [l] itself. *)
Definition list_extend (l src : loc) (hp : Heap) : Heap :=
  <[l := deref hp l ++ deref hp src]> hp.

(** ** Grouping engine (code.py, lines 79-88) *)

(** [groups.setdefault(k, [])]: the list object of group [k], created
    empty when the group is new. *)
Definition setdefault_list (k : string) (groups : dict loc) (hp : Heap)
  : loc * dict loc * Heap :=
  match dict_get k groups with
  | Some l => (l, groups, hp)
  | None => let '(l, hp') := alloc [] hp in (l, dict_set k l groups, hp')
  end.

(** One iteration of the loop of [distribute_hosts]. *)
Definition distribute_step (h : HostRecord) (st : dict loc * Heap)
  : exn + (dict loc * Heap) :=
  let '(groups, hp) := st in
  match h !! "u_patching_group" with
  | None => inl (KeyError "u_patching_group")
  | Some group_name =>
      let '(l, groups', hp') := setdefault_list group_name groups hp in
      match h !! "name" with
      | None => inl (KeyError "name")
      | Some n => inr (groups', list_append l n hp')
      end
  end.

Fixpoint distribute_loop (all_hosts : list HostRecord) (st : dict loc * Heap)
  : exn + (dict loc * Heap) :=
  match all_hosts with
  | [] => inr st
  | h :: rest =>
      match distribute_step h st with
      | inl e => inl e
      | inr st' => distribute_loop rest st'
      end
  end.

Definition distribute_hosts (all_hosts : list HostRecord) (hp : Heap)
  : exn + (dict loc * Heap) :=
  distribute_loop all_hosts ([], hp).

(** ** Inventory assembler (code.py, lines 90-99) *)

(** The object [{"hosts": l}] of one group: it holds a reference. *)
Record GroupEntry : Type := { hosts : loc }.

(** One iteration of the loop of [build_ansible_inventory]. *)
Definition build_step (item : string * loc) (st : dict GroupEntry * Heap)
  : exn + (dict GroupEntry * Heap) :=
  let '(group, hosts_ref) := item in
  let '(inventory, hp) := st in
  let inventory' := dict_set group {| hosts := hosts_ref |} inventory in
  match dict_get "all" inventory' with
  | None => inl (KeyError "all")
  | Some e => inr (inventory', list_extend (hosts e) hosts_ref hp)
  end.

Fixpoint build_loop (items : dict loc) (st : dict GroupEntry * Heap)
  : exn + (dict GroupEntry * Heap) :=
  match items with
  | [] => inr st
  | item :: rest =>
      match build_step item st with
      | inl e => inl e
      | inr st' => build_loop rest st'
      end
  end.

Definition build_ansible_inventory (distribution : dict loc) (hp : Heap)
  : exn + (dict GroupEntry * Heap) :=
  let '(a, hp') := alloc [] hp in
  build_loop distribution ([("all", {| hosts := a |})], hp').

(** ** Reading documents back from the store *)

(** A document: group name to host list, in key order. *)
Abbreviation Document := (list (string * list string)).

(** The grouped inventory as a value. *)
Definition grouped (distribution : dict loc) (hp : Heap) : Document :=
  map (fun kv => (fst kv, deref hp (snd kv))) distribution.

(** The inventory as [json.dump] walks it (code.py, line 103). *)
Definition render (inventory : dict GroupEntry) (hp : Heap) : Document :=
  map (fun kv => (fst kv, deref hp (hosts (snd kv)))) inventory.

(** Grouping followed by assembly, from an empty store. *)
Definition inventory_of (all_hosts : list HostRecord) : exn + Document :=
  match distribute_hosts all_hosts [] with
  | inl e => inl e
  | inr (distribution, hp) =>
      match build_ansible_inventory distribution hp with
      | inl e => inl e
      | inr (inventory, hp') => inr (render inventory hp')
      end
  end.

(** A record as the retrieval returns it. *)
Definition mk_host (name group : string) : HostRecord :=
  {[ "name" := name; "u_patching_group" := group ]}.

(** ** The process: environment, store and streams *)

(** What a computation ends with.  [Exit] is [SystemExit], which
    [except Exception] does not catch. *)
Inductive result (A : Type) : Type :=
| Ret (a : A)
| Raise (e : exn)
| Exit (code : Z).

Arguments Ret {A} a.
Arguments Raise {A} e.
Arguments Exit {A} code.

(** A line on the diagnostic stream: which message it is and the values
    it interpolates. *)
Inductive Diag : Type :=
| QueryFailed (e : exn)
| Starting
| Retrieved (n : nat)
| Ignoring (hostname : option string)
| Dropping (hostname : option string)
| Total (n : nat)
| Grouped (keys : list string)
| Complete.

(** The answer of the HTTP call as the program uses it. *)
Record Response : Type := {
  status_error : option exn;
  json_result : exn + option (list HostRecord)
}.

(** The value [resolve_dns] returns. *)
Record ResolutionResult : Type := {
  hostname : option string;
  ip : option string;
  valid : bool
}.

(** The parsed command line (code.py, lines 35-41). *)
Record Args : Type := { debug : bool; limit : Z; os_filter : string }.

Definition default_domain : string := "example.com".

Section Program.

Context {World : Type}.

(** [socket.gethostbyname]: an address, or an exception. *)
Variable gethostbyname : World -> string -> World * (exn + string).

(** [requests.get]: a response, or an exception. *)
Variable requests_get : World -> string -> World * (exn + Response).

Record State : Type := {
  world : World;
  heap : Heap;
  stdout : list Document;
  stderr : list Diag
}.

Definition set_world (w : World) (s : State) : State :=
  {| world := w; heap := heap s; stdout := stdout s; stderr := stderr s |}.

Definition set_heap (hp : Heap) (s : State) : State :=
  {| world := world s; heap := hp; stdout := stdout s; stderr := stderr s |}.

Definition add_stdout (doc : Document) (s : State) : State :=
  {| world := world s; heap := heap s;
     stdout := stdout s ++ [doc]; stderr := stderr s |}.

Definition add_stderr (d : Diag) (s : State) : State :=
  {| world := world s; heap := heap s;
     stdout := stdout s; stderr := stderr s ++ [d] |}.

Definition Py (A : Type) : Type := State -> State * result A.

Definition ret {A : Type} (a : A) : Py A := fun s => (s, Ret a).

Definition raise {A : Type} (e : exn) : Py A := fun s => (s, Raise e).

Definition bind {A B : Type} (c : Py A) (k : A -> Py B) : Py B :=
  fun s =>
    match c s with
    | (s', Ret a) => k a s'
    | (s', Raise e) => (s', Raise e)
    | (s', Exit code) => (s', Exit code)
    end.

(** [try: body / except Exception as e: handler e] *)
Definition try_except {A : Type} (body : Py A) (handler : exn -> Py A) : Py A :=
  fun s =>
    match body s with
    | (s', Raise e) => handler e s'
    | r => r
    end.

Notation "'let*' x := c 'in' k" := (bind c (fun x => k))
  (at level 10, x name, c at level 100, k at level 200).
Notation "c >> k" := (bind c (fun _ => k))
  (at level 200, k at level 200, only parsing, right associativity).

(** A value or an exception, as a computation. *)
Definition lift_sum {A : Type} (r : exn + A) : Py A :=
  match r with
  | inl e => raise e
  | inr a => ret a
  end.

(** A call into the environment. *)
Definition call_world {A : Type} (f : World -> World * (exn + A)) : Py A :=
  fun s =>
    let '(w, r) := f (world s) in
    lift_sum r (set_world w s).

(** A function on the store. *)
Definition call_heap {A : Type} (f : Heap -> exn + (A * Heap)) : Py A :=
  fun s =>
    match f (heap s) with
    | inl e => (s, Raise e)
    | inr (a, hp) => (set_heap hp s, Ret a)
    end.

(** [print(..., file=sys.stderr)] *)
Definition print_stderr (d : Diag) : Py unit :=
  fun s => (add_stderr d s, Ret tt).

(** [sys.exit(code)] *)
Definition sys_exit {A : Type} (code : Z) : Py A := fun s => (s, Exit code).

(** code.py, lines 30-33 *)
Definition debug_print (msg : Diag) (debug : bool) : Py unit :=
  if debug then print_stderr msg else ret tt.

(** code.py, lines 43-61 *)
Definition servicenow_query (os_filter : string) (limit : Z)
  : Py (list HostRecord) :=
  let instance := "your_instance" in
  let url := "https://" +:+ instance
             +:+ ".service-now.com/api/now/table/cmdb_ci_server" in
  let query := "?sysparm_query=os=" +:+ os_filter
               +:+ "^install_status=1^state=Live&sysparm_limit="
               +:+ PyStr.of_Z limit in
  try_except
    (let* response := call_world (fun w => requests_get w (url +:+ query)) in
     match status_error response with
     | Some e => raise e
     | None =>
         let* body := lift_sum (json_result response) in
         ret (default [] body)
     end)
    (fun e => print_stderr (QueryFailed e) >> sys_exit 1).

(** [f"{hostname}.{domain}"] when [hostname] has no dot (lines 72-73);
    on [None] the test [in] raises. *)
Definition qualify (hostname : option string) (domain : string)
  : exn + string :=
  match hostname with
  | None => inl TypeError
  | Some h =>
      inr (if negb (PyStr.contains "." h) then h +:+ "." +:+ domain else h)
  end.

(** code.py, lines 69-77.  The one [try] block is split where the local
    [hostname] is reassigned, so that the handler returns the value the
    variable has when the exception is raised. *)
Definition resolve_dns (hostname : option string) (domain : string)
  : Py ResolutionResult :=
  try_except
    (let* hostname' := lift_sum (qualify hostname domain) in
     try_except
       (let* ip := call_world (fun w => gethostbyname w hostname') in
        ret {| hostname := Some hostname'; ip := Some ip; valid := true |})
       (fun _ =>
          ret {| hostname := Some hostname'; ip := None; valid := false |}))
    (fun _ => ret {| hostname := hostname; ip := None; valid := false |}).

(** [print_inventory], code.py, lines 101-103 *)
Definition print_inventory (inventory : dict GroupEntry) : Py unit :=
  fun s => (add_stdout (render inventory (heap s)) s, Ret tt).

(** The loop of [main], code.py, lines 121-134. *)
Fixpoint filter_loop (debug : bool) (raw_hosts filtered_hosts : list HostRecord)
  : Py (list HostRecord) :=
  match raw_hosts with
  | [] => ret filtered_hosts
  | rec :: rest =>
      let hostname := rec !! "name" in
      if ignore_host rec then
        debug_print (Ignoring hostname) debug >>
        filter_loop debug rest filtered_hosts
      else
        let* dns_info := resolve_dns hostname default_domain in
        if negb (valid dns_info) then
          debug_print (Dropping hostname) debug >>
          filter_loop debug rest filtered_hosts
        else
          filter_loop debug rest (filtered_hosts ++ [rec])
  end.

(** [main], code.py, lines 108-147, after [parse_args]. *)
Definition main (args : Args) : Py unit :=
  let debug := debug args in
  debug_print Starting debug >>
  let* raw_hosts := servicenow_query (os_filter args) (limit args) in
  debug_print (Retrieved (length raw_hosts)) debug >>
  let* filtered_hosts := filter_loop debug raw_hosts [] in
  debug_print (Total (length filtered_hosts)) debug >>
  let* distribution := call_heap (distribute_hosts filtered_hosts) in
  debug_print (Grouped (dict_keys distribution)) debug >>
  let* inventory := call_heap (build_ansible_inventory distribution) in
  debug_print Complete debug >>
  print_inventory inventory.

(** The exit status of the process: an uncaught exception ends it with
    status 1. *)
Definition exit_status (r : result unit) : Z :=
  match r with
  | Ret _ => 0
  | Raise _ => 1
  | Exit code => code
  end.

(** The state after [debug_print msg debug]. *)
Definition logged (debug : bool) (msg : Diag) (s : State) : State :=
  if debug then add_stderr msg s else s.

(** What the body of the [try] block of [servicenow_query] evaluates to
    in environment [w]: the records, or the exception that is caught. *)
Definition retrieval (os_filter : string) (limit : Z) (w : World)
  : exn + list HostRecord :=
  let instance := "your_instance" in
  let url := "https://" +:+ instance
             +:+ ".service-now.com/api/now/table/cmdb_ci_server" in
  let query := "?sysparm_query=os=" +:+ os_filter
               +:+ "^install_status=1^state=Live&sysparm_limit="
               +:+ PyStr.of_Z limit in
  match snd (requests_get w (url +:+ query)) with
  | inl e => inl e
  | inr response =>
      match status_error response with
      | Some e => inl e
      | None =>
          match json_result response with
          | inl e => inl e
          | inr body => inr (default [] body)
          end
      end
  end.

(** The state a run starts from. *)
Definition initial (w : World) : State :=
  {| world := w; heap := []; stdout := []; stderr := [] |}.

End Program.

(** ** Reference definitions used in the statements *)

(** *** Matching a word without regard to case

    A plain character is one of the ASCII range that is no capital
    letter; the denied names are words of plain characters. *)
Definition plain_char (x : ascii) : bool :=
  (N_of_ascii x <? 0x80)%N
  && negb ((0x41 <=? N_of_ascii x)%N && (N_of_ascii x <=? 0x5A)%N).

Fixpoint plain_word (w : string) : bool :=
  match w with
  | EmptyString => true
  | String x w' => plain_char x && plain_word w'
  end.

(** The code points that [str.lower] takes to the plain character [x]:
    [x] itself, its capital when [x] is a letter, and the Kelvin sign
    U+212A when [x] is the letter k. *)
Definition folds_to (c : N) (x : ascii) : bool :=
  let n := N_of_ascii x in
  (c =? n)%N
  || ((0x61 <=? n)%N && (n <=? 0x7A)%N && (c + 0x20 =? n)%N)
  || ((n =? 0x6B)%N && (c =? 0x212A)%N).

(** The code points match the word position by position. *)
Fixpoint caseless_match (cps : list N) (w : string) : bool :=
  match cps, w with
  | [], EmptyString => true
  | c :: cps', String x w' => folds_to c x && caseless_match cps' w'
  | _, _ => false
  end.

(** Checks on the entries of [lower_table_tail]. *)
Definition entry_above_ascii (e : N * N * N * N) : bool :=
  let '(lo, _, _, target) := e in (0x80 <=? lo)%N && (0x80 <=? target)%N.

Definition is_kelvin_entry (e : N * N * N * N) : bool :=
  let '(lo, hi, stride, target) := e in
  (lo =? 0x212A)%N && (hi =? 0x212A)%N && (target =? 0x6B)%N.

(** The lower case of one code point by the table. *)
Definition lower_one (c : N) : N :=
  match PyStr.lookup_lower PyStr.lower_table c with Some y => y | None => c end.

(** Some word of [l] matches the code points of [s]. *)
Definition denied_caseless (s : string) (l : list string) : bool :=
  existsb (caseless_match (PyStr.decode s)) l.

(** ASCII strings and their lower-casing byte by byte. *)
Fixpoint ascii_only (s : string) : bool :=
  match s with
  | EmptyString => true
  | String b s' => (N_of_ascii b <? 0x80)%N && ascii_only s'
  end.

Definition ascii_fold_char (b : ascii) : ascii :=
  if (0x41 <=? N_of_ascii b)%N && (N_of_ascii b <=? 0x5A)%N
  then ascii_of_N (N_of_ascii b + 0x20)
  else b.

Fixpoint ascii_fold (s : string) : string :=
  match s with
  | EmptyString => EmptyString
  | String b s' => String (ascii_fold_char b) (ascii_fold s')
  end.

Definition name_of (h : HostRecord) : option string := h !! "name".
Definition group_of (h : HostRecord) : option string := h !! "u_patching_group".

(** A record that carries both fields. *)
Definition well_formed (h : HostRecord) : Prop :=
  is_Some (name_of h) /\ is_Some (group_of h).

(** Grouping as a function on documents: a record of a new group adds
    the group last, a record of a known group adds its name at the end of
    that group's list. *)
Definition add_host (G : Document) (g n : string) : Document :=
  match dict_get g G with
  | None => G ++ [(g, [n])]
  | Some hs => dict_set g (hs ++ [n]) G
  end.

Definition grouping_step (G : Document) (h : HostRecord) : Document :=
  match group_of h, name_of h with
  | Some g, Some n => add_host G g n
  | _, _ => G
  end.

Definition grouping (all_hosts : list HostRecord) : Document :=
  fold_left grouping_step all_hosts [].

(** The names of the records of group [g], in input order. *)
Definition names_of_group (g : string) (all_hosts : list HostRecord)
  : list string :=
  omap (fun h =>
          match group_of h, name_of h with
          | Some g', Some n => if String.eqb g' g then Some n else None
          | _, _ => None
          end) all_hosts.

(** The references of a grouped inventory are distinct list objects of
    the store. *)
Definition heap_ok (d : dict loc) (hp : Heap) : Prop :=
  NoDup (map snd d) /\ Forall (fun l => l < length hp) (map snd d).

(** The inventory entry made from an item of the grouped inventory
    (code.py, line 97). *)
Definition set_entry (inventory : dict GroupEntry) (item : string * loc)
  : dict GroupEntry :=
  dict_set (fst item) {| hosts := snd item |} inventory.

(** Record [h] has group [g] and name [n]. *)
Definition same_group_and_name (g n : string) (h : HostRecord) : bool :=
  match group_of h, name_of h with
  | Some g', Some n' => String.eqb g' g && String.eqb n' n
  | _, _ => false
  end.

(** The host list under the key ["all"] of a document. *)
Definition all_hosts_of (doc : Document) : list string :=
  default [] (dict_get "all" doc).

(** The entries of a document other than ["all"]. *)
Definition named_groups (doc : Document) : Document :=
  List.filter (fun kv => negb (String.eqb (fst kv) "all")) doc.

(** How often [n] occurs in a host list. *)
Definition occurrences (n : string) (hs : list string) : nat :=
  count_occ string_dec hs n.

(** How often [n] occurs in the named groups of a document, in total. *)
Definition occurrences_in_named (n : string) (doc : Document) : nat :=
  list_sum (map (fun kv => occurrences n (snd kv)) (named_groups doc)).

(** The named groups whose host list holds [n]. *)
Definition groups_holding (n : string) (doc : Document) : list string :=
  map fst (List.filter (fun kv => PyStr.mem n (snd kv)) (named_groups doc)).

(** The invariant of the grouped inventory as the data model words it:
    every hostname of the document is in exactly one named group and as
    often under ["all"] as in the named groups. *)
Definition one_group_invariant (doc : Document) : Prop :=
  forall n : string,
    In n (all_hosts_of doc) \/ groups_holding n doc <> [] ->
    length (groups_holding n doc) = 1
    /\ occurrences n (all_hosts_of doc) = occurrences_in_named n doc.

(** The invariant claimed of the inventory produced from [all_hosts]. *)
Definition grouped_invariant_claim (all_hosts : list HostRecord) : Prop :=
  forall doc, inventory_of all_hosts = inr doc -> one_group_invariant doc.

(** Sample inputs. *)
Definition sample_records : list HostRecord :=
  [mk_host "web01" "webservers"; mk_host "db01" "dbteam";
   mk_host "web02" "webservers"; mk_host "web01" "webservers"].

(** A sample environment: one answer from the CMDB, and a resolver that
    knows every name but one. *)
Definition sample_raw : list HostRecord :=
  [mk_host "web01" "webservers"; mk_host "drhost01" "webservers";
   mk_host "db01" "dbteam"; mk_host "ghost01" "dbteam";
   mk_host "app01" "unix_team"].

Definition sample_gethostbyname (w : unit) (h : string) : unit * (exn + string) :=
  (w, if String.eqb h "ghost01.example.com"
      then inl (Failure "Name or service not known")
      else inr "10.0.0.7").

Definition sample_requests_get (w : unit) (url : string) : unit * (exn + Response) :=
  (w, inr {| status_error := None; json_result := inr (Some sample_raw) |}).

Definition failing_requests_get (w : unit) (url : string) : unit * (exn + Response) :=
  (w, inl (Failure "connection refused")).

Definition sample_args : Args :=
  {| debug := true; limit := MAX_HOSTS; os_filter := "Linux%20Red%20Hat" |}.

(** The environment after the HTTP call of [servicenow_query]. *)
Definition world_after_request {World : Type}
    (requests_get : World -> string -> World * (exn + Response))
    (os_filter : string) (limit : Z) (w : World) : World :=
  let instance := "your_instance" in
  let url := "https://" +:+ instance
             +:+ ".service-now.com/api/now/table/cmdb_ci_server" in
  let query := "?sysparm_query=os=" +:+ os_filter
               +:+ "^install_status=1^state=Live&sysparm_limit="
               +:+ PyStr.of_Z limit in
  fst (requests_get w (url +:+ query)).

(** A diagnostic line that reports a discarded record. *)
Definition is_discard (d : Diag) : bool :=
  match d with
  | Ignoring _ | Dropping _ => true
  | _ => false
  end.

(** For a resolver whose answer depends on the name only: the lookup of
    the record's name, qualified as [resolve_dns] does, succeeds. *)
Definition resolvable (lookup : string -> exn + string) (h : HostRecord) : bool :=
  match qualify (h !! "name") default_domain with
  | inl _ => false
  | inr q =>
      match lookup q with
      | inl _ => false
      | inr _ => true
      end
  end.

(** The record is neither ignored nor unresolvable. *)
Definition kept_by (lookup : string -> exn + string) (h : HostRecord) : bool :=
  negb (ignore_host h) && resolvable lookup h.

(** The run ends with outcome [r] and the primary stream holding [out]. *)
Definition main_outcome_is {World : Type}
    (gethostbyname : World -> string -> World * (exn + string))
    (requests_get : World -> string -> World * (exn + Response))
    (args : Args) (w : World) (r : result unit) (out : list Document) : Prop :=
  snd (main gethostbyname requests_get args (initial w)) = r
  /\ stdout (fst (main gethostbyname requests_get args (initial w))) = out.

(** The name [backup01] spelt with the Kelvin sign U+212A (bytes E2 84 AA)
    for its letter k, and an answer of the CMDB that carries it. *)
Definition kelvin_backup01 : string :=
  "bac" +:+ String (ascii_of_nat 226) (String (ascii_of_nat 132)
              (String (ascii_of_nat 170) "up01")).

Definition kelvin_requests_get (w : unit) (url : string) : unit * (exn + Response) :=
  (w, inr {| status_error := None;
             json_result := inr (Some [mk_host "web01" "webservers";
                                       mk_host kelvin_backup01 "webservers"]) |}).

(** Further sample environments: a resolver as a function of the name,
    an answer without a ["result"] entry, and an answer with an error
    status. *)
Definition sample_lookup (h : string) : exn + string :=
  if String.eqb h "ghost01.example.com"
  then inl (Failure "Name or service not known")
  else inr "10.0.0.7".

Definition no_result_requests_get (w : unit) (url : string)
  : unit * (exn + Response) :=
  (w, inr {| status_error := None; json_result := inr None |}).

Definition bad_status_requests_get (w : unit) (url : string)
  : unit * (exn + Response) :=
  (w, inr {| status_error := Some (Failure "401 Client Error");
             json_result := inr (Some sample_raw) |}).

(** * Properties *)

(** ** Strings *)

Lemma decode_cons (b : ascii) (s : string) :
  exists c l, PyStr.decode (String b s) = c :: l.
Proof.
  cbn [PyStr.decode]. cbv zeta.
  repeat match goal with
         | |- context [if ?b then _ else _] => destruct b
         | |- context [match ?s with EmptyString => _ | String _ _ => _ end] =>
             destruct s
         end; eauto.
Qed.

Lemma encode_cp_cons (c : N) : exists b r, PyStr.encode_cp c = String b r.
Proof.
  unfold PyStr.encode_cp.
  repeat match goal with
         | |- context [if ?b then _ else _] => destruct b
         end; eauto.
Qed.

Lemma to_lower_full_cons (c : N) : exists y l, PyStr.to_lower_full c = y :: l.
Proof. unfold PyStr.to_lower_full. destruct (c =? 0x130)%N; eauto. Qed.

Lemma lower_cps_cons (st : bool) (c : N) (cps : list N) :
  exists y l, PyStr.lower_cps st (c :: cps) = y :: l.
Proof.
  cbn [PyStr.lower_cps]. destruct (c =? 0x3A3)%N; [simpl; eauto|].
  destruct (to_lower_full_cons c) as (y & l & ->). simpl. eauto.
Qed.

Lemma lower_empty_iff (s : string) : PyStr.lower s = "" <-> s = "".
Proof.
  split; [|intros ->; reflexivity].
  destruct s as [|b s]; [reflexivity|]. unfold PyStr.lower.
  destruct (decode_cons b s) as (c & l & ->).
  destruct (lower_cps_cons false c l) as (y & l' & ->).
  cbn [PyStr.encode]. destruct (encode_cp_cons y) as (b' & r & ->).
  discriminate.
Qed.

Lemma lookup_lower_Some (t : list (N * N * N * N)) (c y : N) :
  PyStr.lookup_lower t c = Some y ->
  exists e, In e t /\ PyStr.in_entry e c = true /\ y = PyStr.image e c.
Proof.
  induction t as [|e t IH]; simpl; [discriminate|].
  destruct (PyStr.in_entry e c) eqn:E.
  - intros [= <-]. exists e. auto.
  - intros H. destruct (IH H) as (e' & He' & H'). exists e'. auto.
Qed.

Lemma lower_table_tail_checked :
  forallb (fun e => is_kelvin_entry e || entry_above_ascii e) PyStr.lower_table_tail
  = true.
Proof. vm_compute. reflexivity. Qed.

Lemma lookup_tail (c y : N) :
  PyStr.lookup_lower PyStr.lower_table_tail c = Some y ->
  (0x80 <= c)%N /\ ((0x80 <= y)%N \/ (c = 0x212A /\ y = 0x6B)%N).
Proof.
  intros H. apply lookup_lower_Some in H as (e & He & Hin & ->).
  pose proof lower_table_tail_checked as Hall.
  rewrite forallb_forall in Hall. specialize (Hall e He).
  destruct e as [[[lo hi] stride] target].
  unfold PyStr.in_entry in Hin. unfold PyStr.image.
  apply andb_prop in Hin as [Hin _]. apply andb_prop in Hin as [Hlo Hhi].
  apply N.leb_le in Hlo, Hhi.
  apply orb_prop in Hall as [Hk|Ha].
  - unfold is_kelvin_entry in Hk.
    apply andb_prop in Hk as [Hk Ht]. apply andb_prop in Hk as [Hl Hh].
    apply N.eqb_eq in Hl, Hh, Ht. subst. split; [lia|]. right. lia.
  - unfold entry_above_ascii in Ha. apply andb_prop in Ha as [Hl Ht].
    apply N.leb_le in Hl, Ht. split; [lia|]. left. lia.
Qed.

Lemma lookup_ascii (c : N) :
  (c < 0x80)%N ->
  PyStr.lookup_lower PyStr.lower_table c
  = if (0x41 <=? c)%N && (c <=? 0x5A)%N then Some (c + 0x20)%N else None.
Proof.
  intros Hc. unfold PyStr.lower_table. cbn [PyStr.lookup_lower PyStr.in_entry PyStr.image].
  rewrite N.mod_1_r. cbn [N.eqb]. rewrite andb_true_r.
  destruct ((0x41 <=? c)%N && (c <=? 0x5A)%N) eqn:E.
  - apply andb_prop in E as [H1 H2]. apply N.leb_le in H1, H2. f_equal. lia.
  - destruct (PyStr.lookup_lower PyStr.lower_table_tail c) as [y|] eqn:E'; [|reflexivity].
    apply lookup_tail in E' as [H _]. lia.
Qed.

Lemma lookup_to_ascii (c y : N) :
  PyStr.lookup_lower PyStr.lower_table c = Some y -> (y < 0x80)%N ->
  ((0x41 <= c <= 0x5A)%N /\ y = (c + 0x20)%N) \/ (c = 0x212A /\ y = 0x6B)%N.
Proof.
  unfold PyStr.lower_table. cbn [PyStr.lookup_lower PyStr.in_entry PyStr.image].
  rewrite N.mod_1_r. cbn [N.eqb]. rewrite andb_true_r.
  destruct ((0x41 <=? c)%N && (c <=? 0x5A)%N) eqn:E.
  - apply andb_prop in E as [H1 H2]. apply N.leb_le in H1, H2.
    intros [= <-] _. left. lia.
  - intros H Hy. apply lookup_tail in H as [_ [H|H]]; [lia | auto].
Qed.

Lemma lower_one_folds (c : N) (x : ascii) :
  plain_char x = true ->
  lower_one c = N_of_ascii x <-> folds_to c x = true.
Proof.
  unfold plain_char, folds_to, lower_one. cbv zeta. set (n := N_of_ascii x).
  intros Hp. apply andb_prop in Hp as [Hlt Hup].
  apply N.ltb_lt in Hlt. apply negb_true_iff in Hup.
  split.
  - destruct (PyStr.lookup_lower PyStr.lower_table c) as [y|] eqn:E.
    + intros ->. destruct (lookup_to_ascii c n E Hlt) as [[Hc Hn]|[-> Hn]].
      * apply orb_true_intro. left. apply orb_true_intro. right.
        rewrite !andb_true_iff, !N.leb_le, N.eqb_eq. lia.
      * apply orb_true_intro. right. rewrite Hn. reflexivity.
    + intros ->. rewrite N.eqb_refl. reflexivity.
  - intros H. apply orb_prop in H as [H|H]; [apply orb_prop in H as [H|H]|].
    + apply N.eqb_eq in H. subst c. rewrite lookup_ascii by exact Hlt.
      rewrite Hup. reflexivity.
    + rewrite !andb_true_iff, !N.leb_le, N.eqb_eq in H.
      rewrite lookup_ascii by lia.
      replace ((0x41 <=? c)%N && (c <=? 0x5A)%N) with true; [lia|].
      symmetry. rewrite andb_true_iff, !N.leb_le. lia.
    + apply andb_prop in H as [Hn Hc]. apply N.eqb_eq in Hn, Hc. subst c.
      rewrite Hn. vm_compute. reflexivity.
Qed.

Lemma encode_cp_low (y : N) :
  (y < 0x80)%N -> PyStr.encode_cp y = String (ascii_of_N y) EmptyString.
Proof.
  intros H. unfold PyStr.encode_cp.
  apply N.ltb_lt in H. rewrite H. reflexivity.
Qed.

Lemma N_of_ascii_of_N (n : N) : (n < 0x100)%N -> N_of_ascii (ascii_of_N n) = n.
Proof. intros H. apply N_ascii_embedding. exact H. Qed.

Lemma encode_cp_high (y : N) :
  (0x80 <= y)%N ->
  exists b r, PyStr.encode_cp y = String b r /\ (0x80 <= N_of_ascii b)%N.
Proof.
  intros H. unfold PyStr.encode_cp.
  destruct (y <? 0x80)%N eqn:E1; [apply N.ltb_lt in E1; lia|].
  destruct (y <? 0x800)%N eqn:E2; [|destruct (y <? 0x10000)%N eqn:E3;
                                     [|destruct (y <? 0x110000)%N eqn:E4]].
  - apply N.ltb_lt in E2.
    assert (y / 0x40 < 0x20)%N by (apply N.Div0.div_lt_upper_bound; lia).
    eexists _, _. split; [reflexivity|].
    set (q := (y / 0x40)%N) in *. clearbody q.
    rewrite N_of_ascii_of_N by lia. lia.
  - apply N.ltb_lt in E3.
    assert (y / 0x1000 < 0x10)%N by (apply N.Div0.div_lt_upper_bound; lia).
    eexists _, _. split; [reflexivity|].
    set (q := (y / 0x1000)%N) in *. clearbody q.
    rewrite N_of_ascii_of_N by lia. lia.
  - apply N.ltb_lt in E4.
    assert (y / 0x40000 < 0x5)%N by (apply N.Div0.div_lt_upper_bound; lia).
    eexists _, _. split; [reflexivity|].
    set (q := (y / 0x40000)%N) in *. clearbody q.
    rewrite N_of_ascii_of_N by lia. lia.
  - assert ((y - 0x110000) mod 0x80 < 0x80)%N by (apply N.mod_lt; lia).
    eexists _, _. split; [reflexivity|].
    set (q := ((y - 0x110000) mod 0x80)%N) in *. clearbody q.
    rewrite N_of_ascii_of_N by lia. lia.
Qed.

(** The first byte of an encoded sequence. *)
Lemma encode_head (y : N) (l : list N) :
  exists b r,
    PyStr.encode (y :: l) = String b r
    /\ ((y < 0x80)%N -> b = ascii_of_N y /\ r = PyStr.encode l)
    /\ ((0x80 <= y)%N -> (0x80 <= N_of_ascii b)%N).
Proof.
  cbn [PyStr.encode]. destruct (N.lt_ge_cases y 0x80) as [Hlt|Hge].
  - rewrite encode_cp_low by exact Hlt. cbn [String.append].
    eexists _, _. split; [reflexivity|]. split; [auto | lia].
  - destruct (encode_cp_high y Hge) as (b & r & -> & Hb). cbn [String.append].
    eexists _, _. split; [reflexivity|]. split; [lia | auto].
Qed.

Lemma plain_char_low (x : ascii) : plain_char x = true -> (N_of_ascii x < 0x80)%N.
Proof.
  unfold plain_char. intros H. apply andb_prop in H as [H _].
  apply N.ltb_lt, H.
Qed.

Lemma folds_to_not_special (c : N) (x : ascii) :
  plain_char x = true -> folds_to c x = true -> c <> 0x3A3%N /\ c <> 0x130%N.
Proof.
  intros Hp Hf. apply plain_char_low in Hp. unfold folds_to in Hf. cbv zeta in Hf.
  rewrite !orb_true_iff, !andb_true_iff, !N.leb_le, !N.eqb_eq in Hf. lia.
Qed.

(** An encoded sequence whose first code point is not of the ASCII range
    is no word of plain characters. *)
Lemma encode_high_not_plain (y : N) (l : list N) :
  (0x80 <= y)%N -> plain_word (PyStr.encode (y :: l)) = false.
Proof.
  intros Hy. destruct (encode_head y l) as (b & r & -> & _ & Hb).
  cbn [plain_word]. unfold plain_char.
  replace (N_of_ascii b <? 0x80)%N with false; [reflexivity|].
  symmetry. apply N.ltb_ge, Hb, Hy.
Qed.

(** A sequence lower-cases to a word of plain characters exactly when it
    matches the word position by position. *)
Lemma lower_cps_plain (cps : list N) (st : bool) (w : string) :
  plain_word w = true ->
  PyStr.encode (PyStr.lower_cps st cps) = w <-> caseless_match cps w = true.
Proof.
  revert st w. induction cps as [|c cps IH]; intros st w Hw.
  - simpl. destruct w; split; congruence.
  - cbn [PyStr.lower_cps].
    set (st' := if PyStr.is_case_ignorable c then st else PyStr.is_cased c).
    assert (forall y l, (0x80 <= y)%N -> PyStr.encode (y :: l) = w -> False) as Hhigh.
    { intros y l Hy E. rewrite <- E, encode_high_not_plain in Hw by exact Hy.
      discriminate. }
    assert (caseless_match (c :: cps) w = true ->
            exists x w', w = String x w' /\ folds_to c x = true
                         /\ caseless_match cps w' = true /\ plain_char x = true
                         /\ plain_word w' = true) as Hmatch.
    { destruct w as [|x w']; [discriminate|]. cbn [caseless_match plain_word] in *.
      intros H. apply andb_prop in H as [H1 H2]. apply andb_prop in Hw as [H3 H4].
      exists x, w'. auto. }
    destruct (c =? 0x3A3)%N eqn:Esigma.
    { apply N.eqb_eq in Esigma. cbn [app]. split.
      - intros E. exfalso. eapply Hhigh; [|exact E].
        destruct (st && negb (PyStr.followed_by_cased cps)); lia.
      - intros H. destruct (Hmatch H) as (x & w' & _ & Hf & _ & Hp & _).
        destruct (folds_to_not_special c x Hp Hf). contradiction. }
    unfold PyStr.to_lower_full. destruct (c =? 0x130)%N eqn:Edot.
    { apply N.eqb_eq in Edot. cbn [app]. split.
      - intros E. exfalso.
        destruct (encode_head 0x69 (0x307%N :: PyStr.lower_cps st' cps))
          as (b & r & E1 & Hlow & _).
        destruct Hlow as [-> ->]; [lia|].
        rewrite E1 in E. subst w. cbn [plain_word] in Hw.
        rewrite encode_high_not_plain in Hw by lia.
        rewrite andb_false_r in Hw. discriminate.
      - intros H. destruct (Hmatch H) as (x & w' & _ & Hf & _ & Hp & _).
        destruct (folds_to_not_special c x Hp Hf). contradiction. }
    fold (lower_one c). cbn [app].
    destruct (N.lt_ge_cases (lower_one c) 0x80) as [Hlt|Hge].
    + destruct (encode_head (lower_one c) (PyStr.lower_cps st' cps))
        as (b & r & E1 & Hlow & _).
      destruct (Hlow Hlt) as [-> ->]. rewrite E1. split.
      * intros <-. cbn [plain_word] in Hw. apply andb_prop in Hw as [Hp Hw'].
        cbn [caseless_match]. apply andb_true_intro. split.
        -- apply lower_one_folds; [exact Hp|].
           rewrite N_of_ascii_of_N by lia. reflexivity.
        -- apply (IH st'); [exact Hw' | reflexivity].
      * intros H. destruct (Hmatch H) as (x & w' & -> & Hf & Hm & Hp & Hw').
        apply lower_one_folds in Hf; [|exact Hp].
        rewrite Hf, ascii_N_embedding. f_equal.
        apply (IH st'); assumption.
    + split.
      * intros E. exfalso. eapply Hhigh; [exact Hge | exact E].
      * intros H. destruct (Hmatch H) as (x & w' & _ & Hf & _ & Hp & _).
        apply lower_one_folds in Hf; [|exact Hp].
        apply plain_char_low in Hp. lia.
Qed.

(** [s.lower()] is a given word of plain characters exactly when the
    code points of [s] match it position by position. *)
Lemma lower_is_plain_word (s w : string) :
  plain_word w = true ->
  PyStr.lower s = w <-> caseless_match (PyStr.decode s) w = true.
Proof. intros Hw. unfold PyStr.lower. apply lower_cps_plain, Hw. Qed.

Lemma lower_in_plain_words (s : string) (l : list string) :
  forallb plain_word l = true ->
  In (PyStr.lower s) l <-> denied_caseless s l = true.
Proof.
  intros Hl. unfold denied_caseless. rewrite existsb_exists.
  rewrite forallb_forall in Hl. split.
  - intros Hin. exists (PyStr.lower s). split; [exact Hin|].
    apply lower_is_plain_word; [apply Hl, Hin | reflexivity].
  - intros (w & Hw & Hm). apply lower_is_plain_word in Hm; [|apply Hl, Hw].
    rewrite Hm. exact Hw.
Qed.

Lemma decode_ascii_cons (b : ascii) (s : string) :
  (N_of_ascii b < 0x80)%N ->
  PyStr.decode (String b s) = N_of_ascii b :: PyStr.decode s.
Proof.
  intros H. cbn [PyStr.decode]. cbv zeta.
  apply N.ltb_lt in H. rewrite H. reflexivity.
Qed.

Lemma lower_cps_ascii (s : string) (st : bool) :
  ascii_only s = true ->
  PyStr.encode (PyStr.lower_cps st (PyStr.decode s)) = ascii_fold s.
Proof.
  revert st. induction s as [|b s IH]; intros st Hs; [reflexivity|].
  cbn [ascii_only] in Hs. apply andb_prop in Hs as [Hb Hs].
  apply N.ltb_lt in Hb. rewrite decode_ascii_cons by exact Hb.
  cbn [PyStr.lower_cps]. unfold PyStr.to_lower_full.
  replace (N_of_ascii b =? 0x3A3)%N with false by (symmetry; apply N.eqb_neq; lia).
  replace (N_of_ascii b =? 0x130)%N with false by (symmetry; apply N.eqb_neq; lia).
  rewrite lookup_ascii by exact Hb. cbn [app ascii_fold]. unfold ascii_fold_char.
  set (st' := if PyStr.is_case_ignorable (N_of_ascii b) then st
              else PyStr.is_cased (N_of_ascii b)).
  destruct ((0x41 <=? N_of_ascii b)%N && (N_of_ascii b <=? 0x5A)%N) eqn:E.
  - apply andb_prop in E as [_ E]. apply N.leb_le in E.
    destruct (encode_head (N_of_ascii b + 0x20) (PyStr.lower_cps st' (PyStr.decode s)))
      as (b' & r & -> & Hlow & _).
    destruct Hlow as [-> ->]; [lia|]. rewrite IH by exact Hs. reflexivity.
  - destruct (encode_head (N_of_ascii b) (PyStr.lower_cps st' (PyStr.decode s)))
      as (b' & r & -> & Hlow & _).
    destruct (Hlow Hb) as [-> ->]. rewrite ascii_N_embedding, IH by exact Hs.
    reflexivity.
Qed.

(** On a string of the ASCII range [str.lower] changes the letters A-Z
    to a-z and nothing else. *)
Lemma lower_ascii_only (s : string) :
  ascii_only s = true -> PyStr.lower s = ascii_fold s.
Proof. apply lower_cps_ascii. Qed.

Lemma truthy_false_iff (s : string) : PyStr.truthy s = false <-> s = "".
Proof. destruct s; simpl; split; congruence. Qed.

Lemma mem_In (x : string) (l : list string) : PyStr.mem x l = true <-> In x l.
Proof.
  induction l as [|y l IH]; simpl.
  - split; [discriminate | tauto].
  - destruct (String.eqb_spec x y) as [->|Hne].
    + split; auto.
    + rewrite IH. split; [auto | intros [Heq|Hin]; [congruence | exact Hin]].
Qed.

Lemma contains_In (c : ascii) (s : string) :
  PyStr.contains c s = true <-> In c (list_ascii_of_string s).
Proof.
  induction s as [|d s IH]; simpl.
  - split; [discriminate | tauto].
  - destruct (Ascii.eqb_spec c d) as [->|Hne].
    + split; auto.
    + rewrite IH. split; [auto | intros [Heq|Hin]; [congruence | exact Hin]].
Qed.

(** ** Dictionaries *)

Section DictFacts.

Context {V : Type}.
Implicit Types (d : dict V) (k : string) (v : V).

Lemma dict_get_app k d1 d2 :
  dict_get k (d1 ++ d2)
  = match dict_get k d1 with Some v => Some v | None => dict_get k d2 end.
Proof.
  induction d1 as [|[k' v'] d1 IH]; simpl; [reflexivity|].
  destruct (String.eqb k k'); [reflexivity | exact IH].
Qed.

Lemma dict_set_absent k v d :
  dict_get k d = None -> dict_set k v d = d ++ [(k, v)].
Proof.
  induction d as [|[k' v'] d IH]; simpl; [reflexivity|].
  destruct (String.eqb k k'); [discriminate|].
  intros H. rewrite IH by exact H. reflexivity.
Qed.

Lemma dict_get_set_eq k v d : dict_get k (dict_set k v d) = Some v.
Proof.
  induction d as [|[k' v'] d IH]; simpl.
  - rewrite String.eqb_refl. reflexivity.
  - destruct (String.eqb k k') eqn:E; simpl; rewrite E; [reflexivity | exact IH].
Qed.

Lemma dict_get_set_ne k k' v d :
  k <> k' -> dict_get k (dict_set k' v d) = dict_get k d.
Proof.
  intros Hne. induction d as [|[k0 v0] d IH]; simpl.
  - destruct (String.eqb_spec k k'); [contradiction | reflexivity].
  - destruct (String.eqb_spec k' k0) as [<-|Hne0]; simpl.
    + destruct (String.eqb_spec k k'); [contradiction | reflexivity].
    + rewrite IH. reflexivity.
Qed.

Lemma dict_keys_set_present k v d :
  is_Some (dict_get k d) -> dict_keys (dict_set k v d) = dict_keys d.
Proof.
  unfold dict_keys.
  induction d as [|[k' v'] d IH]; simpl; intros [x Hx]; [discriminate|].
  destruct (String.eqb k k'); simpl; [reflexivity|].
  rewrite IH by eauto. reflexivity.
Qed.

Lemma dict_get_Some_keys k v d : dict_get k d = Some v -> In k (dict_keys d).
Proof.
  unfold dict_keys.
  induction d as [|[k' v'] d IH]; simpl; [discriminate|].
  destruct (String.eqb_spec k k') as [->|Hne]; [auto|].
  intros H. right. apply IH, H.
Qed.

Lemma dict_get_None_keys k d : dict_get k d = None <-> ~ In k (dict_keys d).
Proof.
  unfold dict_keys.
  induction d as [|[k' v'] d IH]; simpl; [tauto|].
  destruct (String.eqb_spec k k') as [->|Hne].
  - split; [discriminate | intros H; exfalso; apply H; auto].
  - rewrite IH. split; [intros H [Heq|Hin]; [congruence | auto] | auto].
Qed.

Lemma dict_get_Some_In k v d : dict_get k d = Some v -> In (k, v) d.
Proof.
  induction d as [|[k' v'] d IH]; simpl; [discriminate|].
  destruct (String.eqb_spec k k') as [->|Hne].
  - intros [= ->]. auto.
  - intros H. right. apply IH, H.
Qed.

End DictFacts.

(** ** The store *)

Lemma deref_insert_eq (hp : Heap) (l : loc) (v : list string) :
  l < length hp -> deref (<[l := v]> hp) l = v.
Proof. intros H. unfold deref. rewrite list_lookup_insert_eq by exact H. reflexivity. Qed.

Lemma deref_insert_ne (hp : Heap) (l l' : loc) (v : list string) :
  l <> l' -> deref (<[l := v]> hp) l' = deref hp l'.
Proof. intros H. unfold deref. rewrite list_lookup_insert_ne by exact H. reflexivity. Qed.

Lemma deref_app_l (hp hp' : Heap) (l : loc) :
  l < length hp -> deref (hp ++ hp') l = deref hp l.
Proof. intros H. unfold deref. rewrite lookup_app_l by exact H. reflexivity. Qed.

Lemma deref_fresh (hp : Heap) (v : list string) : deref (hp ++ [v]) (length hp) = v.
Proof. unfold deref. rewrite list_lookup_middle by reflexivity. reflexivity. Qed.

Lemma deref_out_of_range (hp : Heap) (l : loc) : length hp <= l -> deref hp l = [].
Proof. intros H. unfold deref. rewrite lookup_ge_None_2 by exact H. reflexivity. Qed.

Lemma grouped_insert_other (d : dict loc) (hp : Heap) (l : loc) (v : list string) :
  ~ In l (map snd d) -> grouped d (<[l := v]> hp) = grouped d hp.
Proof.
  unfold grouped. induction d as [|[k l0] d IH]; simpl; intros Hnot; [reflexivity|].
  rewrite deref_insert_ne by (intros ->; apply Hnot; auto).
  rewrite IH by (intros Hin; apply Hnot; auto). reflexivity.
Qed.

Lemma grouped_app_l (d : dict loc) (hp hp' : Heap) :
  Forall (fun l => l < length hp) (map snd d) -> grouped d (hp ++ hp') = grouped d hp.
Proof.
  unfold grouped. induction d as [|[k l0] d IH]; simpl; intros H; [reflexivity|].
  apply Forall_cons in H as [H0 H]. rewrite deref_app_l by exact H0.
  rewrite IH by exact H. reflexivity.
Qed.

Lemma dict_get_In_snd (d : dict loc) (k : string) (l : loc) :
  dict_get k d = Some l -> In l (map snd d).
Proof.
  intros H. apply dict_get_Some_In in H. apply (in_map snd) in H. exact H.
Qed.

Lemma grouped_get (d : dict loc) (hp : Heap) (k : string) :
  dict_get k (grouped d hp) = deref hp <$> dict_get k d.
Proof.
  unfold grouped. induction d as [|[k' l] d IH]; simpl; [reflexivity|].
  destruct (String.eqb k k'); [reflexivity | exact IH].
Qed.

Lemma grouped_insert_at (d : dict loc) (hp : Heap) (k : string) (l : loc)
    (v : list string) :
  heap_ok d hp -> dict_get k d = Some l ->
  grouped d (<[l := v]> hp) = dict_set k v (grouped d hp).
Proof.
  unfold heap_ok. induction d as [|[k' l0] d IH]; simpl; [intros _ [=]|].
  intros [Hnd Hlt] Hget.
  apply NoDup_cons in Hnd as [Hnot Hnd]. apply Forall_cons in Hlt as [Hl0 Hlt].
  rewrite list_elem_of_In in Hnot.
  unfold grouped in *. simpl.
  destruct (String.eqb k k') eqn:E.
  - injection Hget as <-.
    rewrite deref_insert_eq by exact Hl0.
    fold (grouped d (<[l0 := v]> hp)). rewrite grouped_insert_other by exact Hnot.
    reflexivity.
  - assert (l <> l0) as Hne.
    { intros ->. apply Hnot. eapply dict_get_In_snd, Hget. }
    rewrite deref_insert_ne by exact Hne.
    rewrite IH; [reflexivity | split; assumption | exact Hget].
Qed.

(** ** Grouping: the loop refines [grouping_step] *)

Lemma distribute_step_refines (h : HostRecord) (d : dict loc) (hp : Heap) :
  well_formed h -> heap_ok d hp ->
  exists d' hp',
    distribute_step h (d, hp) = inr (d', hp')
    /\ heap_ok d' hp'
    /\ length hp <= length hp'
    /\ grouped d' hp' = grouping_step (grouped d hp) h.
Proof.
  intros [[n Hn] [g Hg]] Hok. unfold name_of, group_of in *.
  unfold distribute_step, grouping_step, name_of, group_of, setdefault_list.
  rewrite Hg, Hn. unfold add_host. rewrite grouped_get.
  destruct (dict_get g d) as [l|] eqn:Hget; simpl.
  - assert (l < length hp) as Hl.
    { destruct Hok as [_ Hlt]. rewrite Forall_forall in Hlt.
      apply Hlt. rewrite list_elem_of_In. eapply dict_get_In_snd, Hget. }
    exists d, (list_append l n hp). unfold list_append.
    repeat split.
    + apply Hok.
    + rewrite length_insert. apply Hok.
    + rewrite length_insert. lia.
    + apply grouped_insert_at; assumption.
  - rewrite dict_set_absent by exact Hget.
    exists (d ++ [(g, length hp)]), (hp ++ [[n]]).
    destruct Hok as [Hnd Hlt].
    assert (list_append (length hp) n (hp ++ [[]]) = hp ++ [[n]]) as ->.
    { unfold list_append. rewrite deref_fresh. simpl.
      replace (length hp) with (length hp + 0) at 1 by lia.
      rewrite insert_app_r. reflexivity. }
    repeat split.
    + rewrite map_app. simpl. apply NoDup_app. split; [exact Hnd|]. split.
      * intros x Hx Hx'. apply list_elem_of_singleton in Hx'. subst x.
        rewrite Forall_forall in Hlt. apply Hlt in Hx. lia.
      * apply NoDup_singleton.
    + rewrite map_app, length_app. simpl. apply Forall_app. split.
      * eapply Forall_impl; [exact Hlt|]. simpl. intros; lia.
      * apply Forall_singleton. lia.
    + rewrite length_app. lia.
    + unfold grouped at 1. rewrite map_app. simpl.
      fold (grouped d (hp ++ [[n]])). rewrite grouped_app_l by exact Hlt.
      rewrite deref_fresh. reflexivity.
Qed.

Lemma distribute_loop_refines (rs : list HostRecord) (d : dict loc) (hp : Heap) :
  Forall well_formed rs -> heap_ok d hp ->
  exists d' hp',
    distribute_loop rs (d, hp) = inr (d', hp')
    /\ heap_ok d' hp'
    /\ length hp <= length hp'
    /\ grouped d' hp' = fold_left grouping_step rs (grouped d hp).
Proof.
  revert d hp. induction rs as [|h rs IH]; intros d hp Hwf Hok.
  - exists d, hp. simpl. auto.
  - apply Forall_cons in Hwf as [Hh Hwf].
    destruct (distribute_step_refines h d hp Hh Hok) as (d1 & hp1 & E1 & Hok1 & Hlen1 & G1).
    destruct (IH d1 hp1 Hwf Hok1) as (d2 & hp2 & E2 & Hok2 & Hlen2 & G2).
    exists d2, hp2. cbn [distribute_loop fold_left]. rewrite E1, E2, G2, G1.
    repeat split; try apply Hok2. lia.
Qed.

Lemma heap_ok_empty : heap_ok [] [].
Proof. split; simpl; [apply NoDup_nil_2 | apply Forall_nil_2]. Qed.

Lemma distribute_hosts_refines (rs : list HostRecord) :
  Forall well_formed rs ->
  exists d hp,
    distribute_hosts rs [] = inr (d, hp)
    /\ heap_ok d hp
    /\ grouped d hp = grouping rs.
Proof.
  intros Hwf.
  destruct (distribute_loop_refines rs [] [] Hwf heap_ok_empty)
    as (d & hp & E & Hok & _ & G).
  exists d, hp. auto.
Qed.

(** ** Grouping as a function *)

Lemma add_host_get (G : Document) (g g' n : string) :
  dict_get g (add_host G g' n)
  = if String.eqb g g' then Some (default [] (dict_get g G) ++ [n])
    else dict_get g G.
Proof.
  unfold add_host. destruct (String.eqb_spec g g') as [->|Hne].
  - destruct (dict_get g' G) as [hs|] eqn:E.
    + rewrite dict_get_set_eq. reflexivity.
    + rewrite dict_get_app, E. simpl. rewrite String.eqb_refl. reflexivity.
  - destruct (dict_get g' G) as [hs|] eqn:E.
    + apply dict_get_set_ne, Hne.
    + rewrite dict_get_app. destruct (dict_get g G); [reflexivity|].
      simpl. destruct (String.eqb_spec g g'); [contradiction | reflexivity].
Qed.

Lemma names_of_group_cons (g : string) (h : HostRecord) (rs : list HostRecord) :
  names_of_group g (h :: rs)
  = match group_of h, name_of h with
    | Some g', Some n =>
        if String.eqb g' g then n :: names_of_group g rs else names_of_group g rs
    | _, _ => names_of_group g rs
    end.
Proof.
  unfold names_of_group. cbn [omap list_omap].
  destruct (group_of h) as [g'|]; [|reflexivity].
  destruct (name_of h) as [n|]; [|reflexivity].
  destruct (String.eqb g' g); reflexivity.
Qed.

Lemma names_of_group_app (g : string) (rs1 rs2 : list HostRecord) :
  names_of_group g (rs1 ++ rs2) = names_of_group g rs1 ++ names_of_group g rs2.
Proof. unfold names_of_group. apply omap_app. Qed.

Lemma grouping_from_get (rs : list HostRecord) (G : Document) (g : string) :
  dict_get g (fold_left grouping_step rs G)
  = match dict_get g G with
    | Some hs => Some (hs ++ names_of_group g rs)
    | None =>
        match names_of_group g rs with
        | [] => None
        | ns => Some ns
        end
    end.
Proof.
  revert G. induction rs as [|h rs IH]; intros G.
  - simpl. destruct (dict_get g G); [rewrite app_nil_r|]; reflexivity.
  - cbn [fold_left]. rewrite IH, names_of_group_cons. unfold grouping_step.
    destruct (group_of h) as [g'|]; [|reflexivity].
    destruct (name_of h) as [n|]; [|reflexivity].
    rewrite add_host_get.
    destruct (String.eqb_spec g g') as [->|Hne].
    + rewrite String.eqb_refl.
      destruct (dict_get g' G) as [hs|]; simpl.
      * rewrite <- app_assoc. reflexivity.
      * reflexivity.
    + destruct (String.eqb_spec g' g) as [->|_]; [contradiction|].
      reflexivity.
Qed.

Lemma grouping_get (rs : list HostRecord) (g : string) :
  dict_get g (grouping rs)
  = match names_of_group g rs with
    | [] => None
    | ns => Some ns
    end.
Proof. unfold grouping. rewrite grouping_from_get. reflexivity. Qed.

Lemma add_host_keys_NoDup (G : Document) (g n : string) :
  NoDup (dict_keys G) -> NoDup (dict_keys (add_host G g n)).
Proof.
  intros H. unfold add_host. destruct (dict_get g G) as [hs|] eqn:E.
  - rewrite dict_keys_set_present by eauto. exact H.
  - unfold dict_keys. rewrite map_app. simpl. apply NoDup_app.
    split; [exact H|]. split; [|apply NoDup_singleton].
    intros x Hx Hx'. apply list_elem_of_singleton in Hx'. subst x.
    apply dict_get_None_keys in E. apply E. rewrite <- list_elem_of_In. exact Hx.
Qed.

Lemma grouping_keys_NoDup (rs : list HostRecord) : NoDup (dict_keys (grouping rs)).
Proof.
  unfold grouping.
  assert (forall G, NoDup (dict_keys G) ->
                    NoDup (dict_keys (fold_left grouping_step rs G))) as H.
  { induction rs as [|h rs IH]; intros G HG; [exact HG|].
    cbn [fold_left]. apply IH. unfold grouping_step.
    destruct (group_of h); [|exact HG]. destruct (name_of h); [|exact HG].
    apply add_host_keys_NoDup, HG. }
  apply H. apply NoDup_nil_2.
Qed.

Lemma names_of_group_In (g n : string) (rs : list HostRecord) :
  In n (names_of_group g rs)
  <-> exists h, In h rs /\ group_of h = Some g /\ name_of h = Some n.
Proof.
  induction rs as [|h rs IH].
  - simpl. split; [tauto | intros (h & [] & _)].
  - rewrite names_of_group_cons. split.
    + destruct (group_of h) as [g'|] eqn:Eg;
        [destruct (name_of h) as [n'|] eqn:En;
         [destruct (String.eqb_spec g' g) as [->|Hne]|]|].
      * intros [<-|Hin]; [exists h; simpl; auto|].
        apply IH in Hin as (h' & Hh' & Hg & Hn). exists h'. simpl. auto.
      * intros Hin. apply IH in Hin as (h' & Hh' & Hg & Hn). exists h'. simpl. auto.
      * intros Hin. apply IH in Hin as (h' & Hh' & Hg & Hn). exists h'. simpl. auto.
      * intros Hin. apply IH in Hin as (h' & Hh' & Hg & Hn). exists h'. simpl. auto.
    + intros (h' & [<-|Hh'] & Hg & Hn).
      * rewrite Hg, Hn, String.eqb_refl. simpl. auto.
      * assert (In n (names_of_group g rs)) as Hin by (apply IH; eauto).
        destruct (group_of h); [|exact Hin]. destruct (name_of h); [|exact Hin].
        destruct (String.eqb _ g); simpl; auto.
Qed.

Lemma grouping_keys (rs : list HostRecord) (g : string) :
  In g (dict_keys (grouping rs))
  <-> exists h n, In h rs /\ group_of h = Some g /\ name_of h = Some n.
Proof.
  split.
  - intros Hin. destruct (dict_get g (grouping rs)) as [hs|] eqn:E.
    + rewrite grouping_get in E.
      destruct (names_of_group g rs) as [|n ns] eqn:En; [discriminate|].
      assert (In n (names_of_group g rs)) as Hn by (rewrite En; simpl; auto).
      apply names_of_group_In in Hn as (h & Hh & Hg & Hn). eauto.
    + apply dict_get_None_keys in E. contradiction.
  - intros (h & n & Hh & Hg & Hn).
    assert (In n (names_of_group g rs)) as Hin by (apply names_of_group_In; eauto).
    destruct (dict_get g (grouping rs)) as [hs|] eqn:E.
    + eapply dict_get_Some_keys, E.
    + rewrite grouping_get in E.
      destruct (names_of_group g rs); [destruct Hin | discriminate].
Qed.

Lemma names_of_group_occurrences (g n : string) (rs : list HostRecord) :
  occurrences n (names_of_group g rs)
  = length (List.filter (same_group_and_name g n) rs).
Proof.
  unfold occurrences. induction rs as [|h rs IH]; [reflexivity|].
  rewrite names_of_group_cons. cbn [List.filter]. unfold same_group_and_name at 1.
  destruct (group_of h) as [g'|]; [|exact IH].
  destruct (name_of h) as [n'|]; [|exact IH].
  destruct (String.eqb g' g); simpl; [|exact IH].
  destruct (string_dec n' n) as [->|Hne].
  - rewrite String.eqb_refl. simpl. rewrite IH. reflexivity.
  - destruct (String.eqb_spec n' n); [contradiction | exact IH].
Qed.

Lemma names_of_group_precedes (g nA nB : string) (A B : HostRecord)
    (rs : list HostRecord) (i j : nat) :
  i < j -> rs !! i = Some A -> rs !! j = Some B ->
  group_of A = Some g -> name_of A = Some nA ->
  group_of B = Some g -> name_of B = Some nB ->
  exists i' j',
    i' < j'
    /\ names_of_group g rs !! i' = Some nA
    /\ names_of_group g rs !! j' = Some nB.
Proof.
  intros Hij HA HB HgA HnA HgB HnB.
  pose proof (take_drop_middle rs i A HA) as Hsplit.
  assert (drop (S i) rs !! (j - S i) = Some B) as HB'.
  { rewrite lookup_drop. replace (S i + (j - S i)) with j by lia. exact HB. }
  pose proof (take_drop_middle _ _ _ HB') as Hsplit'.
  set (l1 := take i rs) in *. set (l2 := take (j - S i) (drop (S i) rs)) in *.
  set (l3 := drop (S (j - S i)) (drop (S i) rs)) in *.
  rewrite <- Hsplit' in Hsplit. rewrite <- Hsplit.
  rewrite names_of_group_app, names_of_group_cons, HgA, HnA, String.eqb_refl.
  rewrite names_of_group_app, names_of_group_cons, HgB, HnB, String.eqb_refl.
  exists (length (names_of_group g l1)),
    (length (names_of_group g l1 ++ nA :: names_of_group g l2)).
  split; [rewrite length_app; simpl; lia|]. split.
  - apply list_lookup_middle. reflexivity.
  - replace (names_of_group g l1 ++ nA :: names_of_group g l2
             ++ nB :: names_of_group g l3)
      with ((names_of_group g l1 ++ nA :: names_of_group g l2)
            ++ nB :: names_of_group g l3)
      by (rewrite <- app_assoc; reflexivity).
    apply list_lookup_middle. reflexivity.
Qed.

Lemma grouped_keys (d : dict loc) (hp : Heap) : dict_keys (grouped d hp) = dict_keys d.
Proof.
  unfold dict_keys, grouped. rewrite map_map. reflexivity.
Qed.

Lemma grouping_get_default (rs : list HostRecord) (g : string) :
  default [] (dict_get g (grouping rs)) = names_of_group g rs.
Proof. rewrite grouping_get. destruct (names_of_group g rs); reflexivity. Qed.

(** ** The record filter *)

Lemma denied_words_plain :
  forallb plain_word IGNORE_HOSTS = true /\ forallb plain_word IGNORE_GROUPS = true.
Proof. split; vm_compute; reflexivity. Qed.

(** C3. [ignore_host] answers [true] exactly when the lower-cased name is
    in the hostname denylist, or the lower-cased group is in the group
    denylist, or the group field is empty or absent; in particular a
    record without a group is ignored whatever its name.  Lower-casing
    is that of [str.lower]: the name, or the group, is denied exactly
    when its code points match a denied word position by position, each
    being the character of the word, its capital, or the Kelvin sign
    for the letter k. *)
Theorem ignore_host_iff (host : HostRecord) :
  (ignore_host host = true
   <-> In (PyStr.lower (get_or_empty host "name")) IGNORE_HOSTS
       \/ In (PyStr.lower (get_or_empty host "u_patching_group")) IGNORE_GROUPS
       \/ group_empty_or_absent host)
  /\ (group_empty_or_absent host -> ignore_host host = true)
  /\ (ignore_host host = true
      <-> denied_caseless (get_or_empty host "name") IGNORE_HOSTS = true
          \/ denied_caseless (get_or_empty host "u_patching_group") IGNORE_GROUPS
             = true
          \/ group_empty_or_absent host).
Proof.
  assert (negb (PyStr.truthy (PyStr.lower (get_or_empty host "u_patching_group"))) = true
          <-> group_empty_or_absent host) as Hgroup.
  { rewrite negb_true_iff, truthy_false_iff, lower_empty_iff.
    unfold group_empty_or_absent, get_or_empty.
    destruct (host !! "u_patching_group") as [g|]; simpl.
    - split; [intros ->; auto | intros [H|H]; congruence].
    - split; auto. }
  assert (ignore_host host = true
   <-> In (PyStr.lower (get_or_empty host "name")) IGNORE_HOSTS
       \/ In (PyStr.lower (get_or_empty host "u_patching_group")) IGNORE_GROUPS
       \/ group_empty_or_absent host) as Hiff.
  { unfold ignore_host. cbv zeta.
    rewrite !orb_true_iff, !mem_In, Hgroup. tauto. }
  split; [exact Hiff|]. split; [intros H; apply Hiff; auto|].
  destruct denied_words_plain as [Hhosts Hgroups].
  rewrite Hiff, (lower_in_plain_words _ _ Hhosts), (lower_in_plain_words _ _ Hgroups).
  tauto.
Qed.

(** ** The grouping engine *)

(** C6. Grouping is a stable partition: the host list of a group is the
    names of its records in input order, so a record that precedes
    another of the same group precedes it in the group's host list; a
    record of a new group creates the group, a record of a known group
    is appended to it. *)
Theorem distribute_hosts_stable_partition (rs : list HostRecord) :
  Forall well_formed rs ->
  exists d hp,
    distribute_hosts rs [] = inr (d, hp)
    /\ (forall g, In g (dict_keys d) ->
          dict_get g (grouped d hp) = Some (names_of_group g rs))
    /\ (forall i j A B g nA nB,
          i < j -> rs !! i = Some A -> rs !! j = Some B ->
          group_of A = Some g -> group_of B = Some g ->
          name_of A = Some nA -> name_of B = Some nB ->
          exists hs i' j',
            dict_get g (grouped d hp) = Some hs
            /\ i' < j' /\ hs !! i' = Some nA /\ hs !! j' = Some nB)
    /\ (forall r g n,
          group_of r = Some g -> name_of r = Some n ->
          exists d1 hp1,
            distribute_hosts (rs ++ [r]) [] = inr (d1, hp1)
            /\ grouped d1 hp1
               = match dict_get g (grouped d hp) with
                 | None => grouped d hp ++ [(g, [n])]
                 | Some hs => dict_set g (hs ++ [n]) (grouped d hp)
                 end).
Proof.
  intros Hwf.
  destruct (distribute_hosts_refines rs Hwf) as (d & hp & E & Hok & G).
  exists d, hp. split; [exact E|]. rewrite G.
  assert (forall g, In g (dict_keys d) ->
            dict_get g (grouping rs) = Some (names_of_group g rs)) as Hget.
  { intros g Hg. rewrite <- (grouped_keys d hp), G in Hg.
    rewrite grouping_get.
    destruct (names_of_group g rs) eqn:En; [|reflexivity].
    destruct (dict_get g (grouping rs)) eqn:E'.
    - rewrite grouping_get, En in E'. discriminate.
    - apply dict_get_None_keys in E'. contradiction. }
  split; [exact Hget|]. split.
  - intros i j A B g nA nB Hij HA HB HgA HgB HnA HnB.
    destruct (names_of_group_precedes g nA nB A B rs i j Hij HA HB HgA HnA HgB HnB)
      as (i' & j' & Hlt & Hi' & Hj').
    exists (names_of_group g rs), i', j'. split; [|auto].
    apply Hget. rewrite <- (grouped_keys d hp), G.
    apply grouping_keys. exists A, nA. split; [|auto].
    apply list_elem_of_In, list_elem_of_lookup. eauto.
  - intros r g n Hg Hn.
    assert (Forall well_formed (rs ++ [r])) as Hwf'.
    { apply Forall_app. split; [exact Hwf|]. apply Forall_singleton.
      split; [rewrite Hn | rewrite Hg]; eauto. }
    destruct (distribute_hosts_refines _ Hwf') as (d1 & hp1 & E1 & _ & G1).
    exists d1, hp1. split; [exact E1|]. rewrite G1.
    unfold grouping. rewrite fold_left_app. cbn [fold_left].
    unfold grouping_step. rewrite Hg, Hn. reflexivity.
Qed.

(** C7. No deduplication and verbatim keys: a name occurs in a group's
    host list as often as there are input records with exactly that
    group and that name, and the keys of the result are exactly the
    group strings of the records, compared without case folding. *)
Theorem distribute_hosts_no_dedup_verbatim (rs : list HostRecord) :
  Forall well_formed rs ->
  exists d hp,
    distribute_hosts rs [] = inr (d, hp)
    /\ (forall g n,
          occurrences n (default [] (dict_get g (grouped d hp)))
          = length (List.filter (same_group_and_name g n) rs))
    /\ (forall g,
          In g (dict_keys d) <-> exists h, In h rs /\ group_of h = Some g).
Proof.
  intros Hwf.
  destruct (distribute_hosts_refines rs Hwf) as (d & hp & E & Hok & G).
  exists d, hp. split; [exact E|]. split.
  - intros g n. rewrite G, grouping_get_default.
    apply names_of_group_occurrences.
  - intros g. rewrite <- (grouped_keys d hp), G, grouping_keys. split.
    + intros (h & n & Hh & Hg & _). eauto.
    + intros (h & Hh & Hg).
      rewrite Forall_forall in Hwf.
      destruct (Hwf h) as [[n Hn] _]; [apply list_elem_of_In, Hh|].
      exists h, n. auto.
Qed.

(** ** The inventory assembler *)

Lemma deref_Forall (P : string -> Prop) (hp : Heap) (l : loc) :
  Forall (Forall P) hp -> Forall P (deref hp l).
Proof.
  intros H. unfold deref. destruct (hp !! l) as [v|] eqn:E; simpl.
  - eapply Forall_lookup_1; eassumption.
  - apply Forall_nil_2.
Qed.

(** The loop never fails: the key ["all"] is there from the start and is
    never removed.  It only copies strings that are in the store. *)
Lemma build_loop_total (P : string -> Prop) (items : dict loc)
    (inv : dict GroupEntry) (hp : Heap) :
  is_Some (dict_get "all" inv) -> Forall (Forall P) hp ->
  exists inv' hp',
    build_loop items (inv, hp) = inr (inv', hp')
    /\ is_Some (dict_get "all" inv')
    /\ Forall (Forall P) hp'.
Proof.
  revert inv hp. induction items as [|[g l] items IH]; intros inv hp Hall HP.
  - exists inv, hp. simpl. auto.
  - cbn [build_loop]. unfold build_step.
    assert (is_Some (dict_get "all" (dict_set g {| hosts := l |} inv))) as [e He].
    { destruct (String.eqb_spec "all" g) as [<-|Hne].
      - rewrite dict_get_set_eq. eauto.
      - rewrite dict_get_set_ne by exact Hne. exact Hall. }
    rewrite He. apply IH; [|].
    + rewrite He. eauto.
    + unfold list_extend. apply Forall_insert; [exact HP|].
      apply Forall_app. split; apply deref_Forall, HP.
Qed.

Lemma build_ansible_inventory_total (P : string -> Prop) (d : dict loc) (hp : Heap) :
  Forall (Forall P) hp ->
  exists inv hp',
    build_ansible_inventory d hp = inr (inv, hp') /\ Forall (Forall P) hp'.
Proof.
  intros HP. unfold build_ansible_inventory, alloc.
  destruct (build_loop_total P d [("all", {| hosts := length hp |})] (hp ++ [[]]))
    as (inv & hp' & E & _ & HP').
  - simpl. eauto.
  - apply Forall_app. split; [exact HP|]. apply Forall_singleton, Forall_nil_2.
  - exists inv, hp'. auto.
Qed.

(** Without a group named ["all"] the accumulator stays the list object
    created at line 95 and receives every group's hosts in turn. *)
Lemma build_loop_no_all (items : dict loc) (inv : dict GroupEntry)
    (hp : Heap) (a : loc) :
  dict_get "all" inv = Some {| hosts := a |} -> a < length hp ->
  Forall (fun kv => fst kv <> "all" /\ snd kv <> a) items ->
  exists hp',
    build_loop items (inv, hp) = inr (fold_left set_entry items inv, hp')
    /\ deref hp' a = deref hp a ++ concat (map (fun kv => deref hp (snd kv)) items)
    /\ (forall l, l <> a -> deref hp' l = deref hp l).
Proof.
  revert inv hp. induction items as [|[g l] items IH]; intros inv hp Hall Ha Hitems.
  - exists hp. simpl. rewrite app_nil_r. auto.
  - apply Forall_cons in Hitems as [[Hg Hl] Hitems]. simpl in Hg, Hl.
    cbn [build_loop fold_left]. unfold build_step.
    assert (dict_get "all" (set_entry inv (g, l)) = Some {| hosts := a |}) as Hall'.
    { unfold set_entry. simpl. rewrite dict_get_set_ne by congruence. exact Hall. }
    unfold set_entry at 1 in Hall'. simpl in Hall'. rewrite Hall'.
    cbn [hosts].
    destruct (IH (set_entry inv (g, l)) (list_extend a l hp)) as (hp' & E & Ha' & Hother).
    + unfold set_entry. simpl. exact Hall'.
    + unfold list_extend. rewrite length_insert. exact Ha.
    + exact Hitems.
    + exists hp'. split; [exact E|]. split.
      * rewrite Ha'. unfold list_extend at 1. rewrite deref_insert_eq by exact Ha.
        cbn [map concat]. rewrite <- app_assoc. f_equal. f_equal. f_equal.
        apply map_ext_in. intros kv Hkv. unfold list_extend.
        apply deref_insert_ne.
        rewrite Forall_forall in Hitems.
        apply list_elem_of_In, Hitems in Hkv. intros Heq. apply Hkv. auto.
      * intros l' Hl'. rewrite Hother by exact Hl'.
        unfold list_extend. apply deref_insert_ne. auto.
Qed.

Lemma fold_set_entry_fresh (d : dict loc) (inv : dict GroupEntry) :
  NoDup (dict_keys d) ->
  (forall k, In k (dict_keys d) -> dict_get k inv = None) ->
  fold_left set_entry d inv
  = inv ++ map (fun kv => (fst kv, {| hosts := snd kv |})) d.
Proof.
  revert inv. induction d as [|[k l] d IH]; intros inv Hnd Hfresh.
  - simpl. rewrite app_nil_r. reflexivity.
  - unfold dict_keys in Hnd. simpl in Hnd.
    apply NoDup_cons in Hnd as [Hk Hnd]. rewrite list_elem_of_In in Hk.
    cbn [fold_left]. unfold set_entry at 2. simpl.
    rewrite dict_set_absent by (apply Hfresh; simpl; auto).
    rewrite IH.
    + rewrite <- app_assoc. reflexivity.
    + exact Hnd.
    + intros k' Hk'. rewrite dict_get_app, Hfresh by (simpl; auto). simpl.
      destruct (String.eqb_spec k' k) as [->|_]; [contradiction | reflexivity].
Qed.

Lemma build_ansible_inventory_no_all (d : dict loc) (hp : Heap) :
  heap_ok d hp -> NoDup (dict_keys d) -> ~ In "all" (dict_keys d) ->
  exists inv hp',
    build_ansible_inventory d hp = inr (inv, hp')
    /\ render inv hp'
       = ("all", concat (map snd (grouped d hp))) :: grouped d hp.
Proof.
  intros [Hnd Hlt] Hkeys Hall. unfold build_ansible_inventory, alloc.
  assert (Forall (fun kv : string * loc => fst kv <> "all" /\ snd kv <> length hp) d)
    as Hitems.
  { rewrite Forall_forall. intros kv Hkv. split.
    - intros Heq. apply Hall. rewrite <- Heq. unfold dict_keys.
      apply in_map, list_elem_of_In, Hkv.
    - rewrite Forall_forall in Hlt.
      assert (snd kv < length hp) as H; [|lia].
      apply Hlt, list_elem_of_In, in_map, list_elem_of_In, Hkv. }
  destruct (build_loop_no_all d [("all", {| hosts := length hp |})]
              (hp ++ [[]]) (length hp)) as (hp' & E & Ha & Hother).
  - reflexivity.
  - rewrite length_app. simpl. lia.
  - exact Hitems.
  - eexists _, hp'. split; [exact E|].
    rewrite fold_set_entry_fresh.
    + unfold render. simpl. rewrite Ha, deref_fresh. simpl. f_equal.
      * f_equal. unfold grouped. rewrite map_map. simpl. f_equal.
        apply map_ext_in. intros kv Hkv. apply deref_app_l.
        rewrite Forall_forall in Hlt.
        apply Hlt, list_elem_of_In, in_map, Hkv.
      * rewrite map_map. unfold grouped. apply map_ext_in. intros kv Hkv. simpl.
        rewrite Forall_forall in Hitems.
        f_equal. rewrite Hother by (apply Hitems, list_elem_of_In, Hkv).
        apply deref_app_l. rewrite Forall_forall in Hlt.
        apply Hlt, list_elem_of_In, in_map, Hkv.
    + exact Hkeys.
    + intros k Hk. simpl.
      destruct (String.eqb_spec k "all") as [->|_]; [contradiction | reflexivity].
Qed.

(** With no group named ["all"], the document is the aggregate followed
    by the groups. *)
Lemma inventory_of_no_all (rs : list HostRecord) :
  Forall well_formed rs ->
  Forall (fun h => group_of h <> Some "all") rs ->
  inventory_of rs
  = inr (("all", concat (map snd (grouping rs))) :: grouping rs).
Proof.
  intros Hwf Hall.
  destruct (distribute_hosts_refines rs Hwf) as (d & hp & E & Hok & G).
  destruct (build_ansible_inventory_no_all d hp Hok) as (inv & hp' & E' & R).
  - rewrite <- (grouped_keys d hp), G. apply grouping_keys_NoDup.
  - rewrite <- (grouped_keys d hp), G, grouping_keys.
    intros (h & n & Hh & Hg & _). rewrite Forall_forall in Hall.
    apply list_elem_of_In, Hall in Hh. contradiction.
  - unfold inventory_of. rewrite E, E', R, G. reflexivity.
Qed.

Lemma occurrences_concat (n : string) (Ls : list (list string)) :
  occurrences n (concat Ls) = list_sum (map (occurrences n) Ls).
Proof.
  unfold occurrences. induction Ls as [|hs Ls IH]; [reflexivity|].
  simpl. rewrite count_occ_app, IH. reflexivity.
Qed.

Lemma named_groups_no_all (G : Document) (hs : list string) :
  ~ In "all" (dict_keys G) -> named_groups (("all", hs) :: G) = G.
Proof.
  intros Hall. unfold named_groups. simpl.
  induction G as [|[k v] G IH]; [reflexivity|].
  simpl in *. destruct (String.eqb_spec k "all") as [->|_].
  - exfalso. apply Hall. auto.
  - simpl. rewrite IH by (intros H; apply Hall; auto). reflexivity.
Qed.

Lemma all_hosts_of_cons (hs : list string) (G : Document) :
  all_hosts_of (("all", hs) :: G) = hs.
Proof. reflexivity. Qed.

Lemma grouping_no_all (rs : list HostRecord) :
  Forall (fun h => group_of h <> Some "all") rs ->
  ~ In "all" (dict_keys (grouping rs)).
Proof.
  intros Hall. rewrite grouping_keys. intros (h & n & Hh & Hg & _).
  rewrite Forall_forall in Hall. apply list_elem_of_In, Hall in Hh. contradiction.
Qed.

(** C1 (as amended). Each record puts its name into the host list of its
    own group and of no other, so a name is held by every group that has
    a record of that name; and with no group named ["all"], a name occurs
    under ["all"] exactly as often as in the named groups together, and
    every name under ["all"] is in at least one named group. *)
Theorem all_counts_named_occurrences (rs : list HostRecord) :
  Forall well_formed rs ->
  Forall (fun h => group_of h <> Some "all") rs ->
  exists doc,
    inventory_of rs = inr doc
    /\ (forall g n,
          g <> "all" ->
          occurrences n (default [] (dict_get g doc))
          = length (List.filter (same_group_and_name g n) rs))
    /\ (forall n, occurrences n (all_hosts_of doc) = occurrences_in_named n doc)
    /\ (forall n, In n (all_hosts_of doc) -> 1 <= length (groups_holding n doc)).
Proof.
  intros Hwf Hall. eexists. split; [apply inventory_of_no_all; assumption|].
  pose proof (grouping_no_all rs Hall) as Hkeys.
  split; [|split].
  - intros g n Hg. simpl.
    destruct (String.eqb_spec g "all") as [->|_]; [contradiction|].
    rewrite grouping_get_default. apply names_of_group_occurrences.
  - intros n. unfold occurrences_in_named.
    rewrite named_groups_no_all by exact Hkeys.
    rewrite all_hosts_of_cons, occurrences_concat, map_map. reflexivity.
  - intros n. unfold groups_holding.
    rewrite named_groups_no_all by exact Hkeys.
    rewrite all_hosts_of_cons. intros Hin. apply in_concat in Hin as (hs & Hhs & Hn).
    apply in_map_iff in Hhs as (kv & <- & Hkv).
    assert (In kv (List.filter (fun kv => PyStr.mem n (snd kv)) (grouping rs))) as Hf.
    { apply filter_In. split; [exact Hkv|]. apply mem_In, Hn. }
    rewrite length_map.
    destruct (List.filter _ (grouping rs)); [destruct Hf | simpl; lia].
Qed.

(** C1, counterexample. Two records with one name and two groups: the
    name is in both groups, not in exactly one. *)
Lemma hostname_in_two_groups :
  ~ grouped_invariant_claim [mk_host "h" "a"; mk_host "h" "b"].
Proof.
  intros H.
  specialize (H [("all", ["h"; "h"]); ("a", ["h"]); ("b", ["h"])]).
  assert (inventory_of [mk_host "h" "a"; mk_host "h" "b"]
          = inr [("all", ["h"; "h"]); ("a", ["h"]); ("b", ["h"])]) as E
    by (vm_compute; reflexivity).
  destruct (H E "h") as [Hone _]; [left; simpl; auto|].
  vm_compute in Hone. discriminate.
Qed.

(** C4 (defect). With a group named ["all"] the list under ["all"] is not
    the concatenation of the groups: the hosts of the groups seen before
    it are lost and its own hosts are doubled, so the length differs from
    the sum over the other groups as well. *)
Theorem all_list_not_concatenation_on_all_group :
  let rs := [mk_host "w1" "web"; mk_host "a1" "all"] in
  grouping rs = [("web", ["w1"]); ("all", ["a1"])]
  /\ inventory_of rs = inr [("all", ["a1"; "a1"]); ("web", ["w1"])]
  /\ (forall doc,
        inventory_of rs = inr doc ->
        all_hosts_of doc <> concat (map snd (grouping rs))
        /\ length (all_hosts_of doc)
           <> list_sum (map (fun kv => length (snd kv)) (named_groups doc))).
Proof.
  cbv zeta. split; [vm_compute; reflexivity|].
  assert (inventory_of [mk_host "w1" "web"; mk_host "a1" "all"]
          = inr [("all", ["a1"; "a1"]); ("web", ["w1"])]) as E
    by (vm_compute; reflexivity).
  split; [exact E|].
  intros doc Hdoc. rewrite E in Hdoc. injection Hdoc as <-.
  split; vm_compute; discriminate.
Qed.

(** C2 (defect). A group named ["all"] is not merged into the aggregate:
    its entry replaces the aggregate, the hosts of the groups before it
    are no longer under ["all"], and the group's own list, which the
    entry shares with the grouped input, is extended by itself. *)
Theorem build_ansible_inventory_all_group_replaces :
  let distribution := [("web", 0); ("all", 1)] in
  let hp := [["w1"]; ["a1"]] in
  exists inventory hp',
    build_ansible_inventory distribution hp = inr (inventory, hp')
    /\ render inventory hp' = [("all", ["a1"; "a1"]); ("web", ["w1"])]
    /\ ~ In "w1" (all_hosts_of (render inventory hp'))
    /\ grouped distribution hp' = [("web", ["w1"]); ("all", ["a1"; "a1"])].
Proof.
  cbv zeta. eexists _, _. split; [vm_compute; reflexivity|].
  split; [vm_compute; reflexivity|]. split; [|vm_compute; reflexivity].
  vm_compute. intros [H|[H|[]]]; discriminate.
Qed.

(** ** The run *)

Section ProgramFacts.

Context {World : Type}.
Variable gethostbyname : World -> string -> World * (exn + string).
Variable requests_get : World -> string -> World * (exn + Response).

Implicit Types (s : @State World) (w : World).

Lemma debug_print_run (m : Diag) (debug : bool) s :
  debug_print m debug s = (logged debug m s, Ret tt).
Proof. unfold debug_print, logged. destruct debug; reflexivity. Qed.

Lemma bind_debug_print {B : Type} (m : Diag) (debug : bool) (k : unit -> Py B) s :
  bind (debug_print m debug) k s = k tt (logged debug m s).
Proof. unfold bind. rewrite debug_print_run. reflexivity. Qed.

Lemma world_logged (debug : bool) (m : Diag) s : world (logged debug m s) = world s.
Proof. destruct debug; reflexivity. Qed.

Lemma heap_logged (debug : bool) (m : Diag) s : heap (logged debug m s) = heap s.
Proof. destruct debug; reflexivity. Qed.

Lemma stdout_logged (debug : bool) (m : Diag) s : stdout (logged debug m s) = stdout s.
Proof. destruct debug; reflexivity. Qed.

(** [resolve_dns] written out: what it returns in each case. *)
Lemma resolve_dns_run (hostname : option string) (domain : string) s :
  resolve_dns gethostbyname hostname domain s
  = match qualify hostname domain with
    | inl _ => (s, Ret {| hostname := hostname; ip := None; valid := false |})
    | inr q =>
        match gethostbyname (world s) q with
        | (w', inr addr) =>
            (set_world w' s,
             Ret {| hostname := Some q; ip := Some addr; valid := true |})
        | (w', inl _) =>
            (set_world w' s,
             Ret {| hostname := Some q; ip := None; valid := false |})
        end
    end.
Proof.
  unfold resolve_dns, try_except, bind, call_world, lift_sum, ret, raise.
  destruct (qualify hostname domain) as [e|q]; [reflexivity|].
  destruct (gethostbyname (world s) q) as [w' [e|addr]]; reflexivity.
Qed.

Lemma ignore_host_false_group (h : HostRecord) :
  ignore_host h = false -> is_Some (h !! "u_patching_group").
Proof.
  intros H. destruct (h !! "u_patching_group") as [g|] eqn:E; [eauto|].
  unfold ignore_host, get_or_empty in H. rewrite E in H. cbn [default] in H.
  change (PyStr.lower "") with "" in H. cbn [PyStr.truthy negb] in H.
  rewrite orb_true_r in H. discriminate.
Qed.

(** The loop of [main] always comes back with the records it kept: a
    sublist of the retrieved ones, none ignored, all with a name.  It
    touches neither the store nor the primary stream. *)
Lemma filter_loop_run (debug : bool) (raw filtered : list HostRecord) s :
  exists s' kept,
    filter_loop gethostbyname debug raw filtered s = (s', Ret (filtered ++ kept))
    /\ sublist kept raw
    /\ Forall (fun r => ignore_host r = false /\ is_Some (r !! "name")) kept
    /\ heap s' = heap s /\ stdout s' = stdout s.
Proof.
  revert filtered s. induction raw as [|rec rest IH]; intros filtered s.
  - exists s, []. simpl. rewrite app_nil_r. repeat split; constructor.
  - cbn [filter_loop]. destruct (ignore_host rec) eqn:Hign.
    + rewrite bind_debug_print.
      destruct (IH filtered (logged debug (Ignoring (rec !! "name")) s))
        as (s' & kept & E & Hsub & Hkept & Hheap & Hout).
      exists s', kept. rewrite E. repeat split; try assumption.
      * apply sublist_cons, Hsub.
      * rewrite Hheap, heap_logged. reflexivity.
      * rewrite Hout, stdout_logged. reflexivity.
    + unfold bind at 1. rewrite resolve_dns_run.
      destruct (qualify (rec !! "name") default_domain) as [e|q] eqn:Hq.
      * cbn [valid negb]. rewrite bind_debug_print.
        destruct (IH filtered (logged debug (Dropping (rec !! "name")) s))
          as (s' & kept & E & Hsub & Hkept & Hheap & Hout).
        exists s', kept. rewrite E. repeat split; try assumption.
        -- apply sublist_cons, Hsub.
        -- rewrite Hheap, heap_logged. reflexivity.
        -- rewrite Hout, stdout_logged. reflexivity.
      * destruct (gethostbyname (world s) q) as [w' [e|addr]].
        -- cbn [valid negb]. rewrite bind_debug_print.
           destruct (IH filtered (logged debug (Dropping (rec !! "name")) (set_world w' s)))
             as (s' & kept & E & Hsub & Hkept & Hheap & Hout).
           exists s', kept. rewrite E. repeat split; try assumption.
           ++ apply sublist_cons, Hsub.
           ++ rewrite Hheap, heap_logged. reflexivity.
           ++ rewrite Hout, stdout_logged. reflexivity.
        -- cbn [valid negb].
           destruct (IH (filtered ++ [rec]) (set_world w' s))
             as (s' & kept & E & Hsub & Hkept & Hheap & Hout).
           exists s', (rec :: kept). rewrite E, <- app_assoc.
           repeat split; try assumption.
           ++ apply sublist_skip, Hsub.
           ++ apply Forall_cons. split; [|exact Hkept]. split; [exact Hign|].
              unfold qualify in Hq. destruct (rec !! "name"); [eauto | discriminate].
Qed.

(** [servicenow_query] written out. *)
Lemma servicenow_query_run (os_filter : string) (limit : Z) s :
  exists w',
    servicenow_query requests_get os_filter limit s
    = match retrieval requests_get os_filter limit (world s) with
      | inl e => (add_stderr (QueryFailed e) (set_world w' s), Exit 1)
      | inr raw => (set_world w' s, Ret raw)
      end.
Proof.
  unfold servicenow_query, retrieval, try_except, bind, call_world, lift_sum,
    ret, raise, print_stderr, sys_exit. cbv zeta.
  match goal with
  | |- context [requests_get (world s) ?u] =>
      destruct (requests_get (world s) u) as [w' [e|response]]
  end; exists w'; simpl; [reflexivity|].
  destruct (status_error response) as [e|]; [reflexivity|].
  destruct (json_result response) as [e|body]; reflexivity.
Qed.

(** Every string of the store after grouping is the name of a record. *)
Lemma distribute_loop_names (P : string -> Prop) (rs : list HostRecord)
    (d d' : dict loc) (hp hp' : Heap) :
  (forall r n, In r rs -> r !! "name" = Some n -> P n) ->
  Forall (Forall P) hp ->
  distribute_loop rs (d, hp) = inr (d', hp') ->
  Forall (Forall P) hp'.
Proof.
  revert d hp. induction rs as [|h rs IH]; intros d hp HP Hhp E.
  - injection E as <- <-. exact Hhp.
  - cbn [distribute_loop] in E.
    destruct (distribute_step h (d, hp)) as [e|[d1 hp1]] eqn:E1; [discriminate|].
    apply (IH d1 hp1); [intros r n Hr; apply HP; simpl; auto | | exact E].
    unfold distribute_step, setdefault_list, alloc in E1.
    destruct (h !! "u_patching_group") as [g|]; [|discriminate].
    destruct (h !! "name") as [n|] eqn:Hn.
    + assert (P n) as Pn by (apply (HP h n); simpl; auto).
      destruct (dict_get g d) as [l|]; injection E1 as <- <-;
        unfold list_append.
      * apply Forall_insert; [exact Hhp|].
        apply Forall_app. split; [apply deref_Forall, Hhp|].
        apply Forall_singleton, Pn.
      * assert (Forall (Forall P) (hp ++ [[]])) as Hhp'.
        { apply Forall_app. split; [exact Hhp|]. apply Forall_singleton, Forall_nil_2. }
        apply Forall_insert; [exact Hhp'|].
        apply Forall_app. split; [apply deref_Forall, Hhp'|].
        apply Forall_singleton, Pn.
    + destruct (dict_get g d); discriminate.
Qed.

Lemma render_Forall (P : string -> Prop) (inv : dict GroupEntry) (hp : Heap) :
  Forall (Forall P) hp ->
  Forall (fun kv => Forall P (snd kv)) (render inv hp).
Proof.
  intros H. unfold render. apply Forall_map, Forall_forall.
  intros kv _. simpl. apply deref_Forall, H.
Qed.

(** The hostnames of an inventory are names of the grouped records. *)
Lemma inventory_of_names (rs : list HostRecord) (doc : Document) :
  inventory_of rs = inr doc ->
  forall g hs n,
    In (g, hs) doc -> In n hs -> exists r, In r rs /\ r !! "name" = Some n.
Proof.
  unfold inventory_of, distribute_hosts. intros E g hs n Hg Hn.
  set (P := fun n : string => exists r, In r rs /\ r !! "name" = Some n).
  destruct (distribute_loop rs ([], [])) as [e|[d hp]] eqn:E1; [discriminate|].
  assert (Forall (Forall P) hp) as Hhp.
  { eapply distribute_loop_names; [| |exact E1].
    - intros r m Hr Hm. exists r. auto.
    - apply Forall_nil_2. }
  destruct (build_ansible_inventory_total P d hp Hhp) as (inv & hp' & E2 & Hhp').
  rewrite E2 in E. injection E as <-.
  pose proof (render_Forall P inv hp' Hhp') as HR.
  rewrite Forall_forall in HR. apply list_elem_of_In, HR in Hg. simpl in Hg.
  rewrite Forall_forall in Hg. apply Hg, list_elem_of_In, Hn.
Qed.

(** A list of records that were not ignored and have a name can be
    grouped and assembled. *)
Lemma inventory_of_kept (rs : list HostRecord) :
  Forall (fun r => ignore_host r = false /\ is_Some (r !! "name")) rs ->
  exists d hp inv hp',
    distribute_hosts rs [] = inr (d, hp)
    /\ build_ansible_inventory d hp = inr (inv, hp')
    /\ inventory_of rs = inr (render inv hp').
Proof.
  intros Hkept.
  assert (Forall well_formed rs) as Hwf.
  { eapply Forall_impl; [exact Hkept|]. intros r [Hign Hname].
    split; [exact Hname | apply ignore_host_false_group, Hign]. }
  destruct (distribute_hosts_refines rs Hwf) as (d & hp & E & _ & _).
  destruct (build_ansible_inventory_total (fun _ => True) d hp) as (inv & hp' & E' & _).
  { apply Forall_forall. intros hs _. apply Forall_forall. auto. }
  exists d, hp, inv, hp'. unfold inventory_of. rewrite E, E'. auto.
Qed.

(** What a run does, by the outcome of the retrieval. *)
Lemma main_run (args : Args) w :
  match retrieval requests_get (os_filter args) (limit args) w with
  | inl e =>
      exists s',
        main gethostbyname requests_get args (initial w) = (s', Exit 1)
        /\ stdout s' = []
        /\ stderr s' = (if debug args then [Starting] else []) ++ [QueryFailed e]
  | inr raw =>
      exists s' filtered doc,
        main gethostbyname requests_get args (initial w) = (s', Ret tt)
        /\ stdout s' = [doc]
        /\ sublist filtered raw
        /\ Forall (fun r => ignore_host r = false /\ is_Some (r !! "name")) filtered
        /\ inventory_of filtered = inr doc
  end.
Proof.
  set (s0 := logged (debug args) Starting (initial w)).
  destruct (servicenow_query_run (os_filter args) (limit args) s0) as [w' E].
  unfold s0 at 2 in E. rewrite world_logged in E. cbn [world initial] in E.
  destruct (retrieval requests_get (os_filter args) (limit args) w) as [e|raw];
    unfold main; cbv zeta; rewrite bind_debug_print; unfold bind at 1;
    fold s0; rewrite E.
  - eexists. split; [reflexivity|]. unfold s0. destruct (debug args); split; reflexivity.
  - rewrite bind_debug_print. unfold bind at 1.
    set (s1 := logged (debug args) (Retrieved (length raw)) (set_world w' s0)).
    destruct (filter_loop_run (debug args) raw [] s1)
      as (s2 & kept & E2 & Hsub & Hkept & Hheap & Hout).
    rewrite E2. cbn [app]. rewrite bind_debug_print. unfold bind at 1.
    set (s3 := logged (debug args) (Total (length kept)) s2).
    assert (heap s3 = []) as Hheap3.
    { unfold s3. rewrite heap_logged, Hheap. unfold s1. rewrite heap_logged.
      unfold s0. cbn [heap set_world]. rewrite heap_logged. reflexivity. }
    assert (stdout s3 = []) as Hout3.
    { unfold s3. rewrite stdout_logged, Hout. unfold s1. rewrite stdout_logged.
      unfold s0. cbn [stdout set_world]. rewrite stdout_logged. reflexivity. }
    destruct (inventory_of_kept kept Hkept) as (d & hp & inv & hp' & Ed & Eb & Ei).
    unfold call_heap at 1. rewrite Hheap3, Ed.
    rewrite bind_debug_print. unfold bind at 1, call_heap at 1.
    rewrite heap_logged. cbn [heap set_heap]. rewrite Eb.
    rewrite bind_debug_print. unfold print_inventory.
    eexists _, kept, _. split; [reflexivity|].
    rewrite heap_logged. cbn [heap set_heap add_stdout stdout].
    rewrite stdout_logged. cbn [stdout set_heap]. rewrite stdout_logged.
    cbn [stdout set_heap]. rewrite Hout3.
    split; [reflexivity|]. auto.
Qed.

(** C5. The resolver looks up the name with the default suffix appended
    exactly when the name has no dot; a successful lookup gives
    [valid = true] with the address and the name looked up, a failed one
    gives [valid = false] and no address.  In the loop of [main] a failed
    lookup only skips that record: the loop goes on with the records
    kept so far, and it always runs to its end. *)
Theorem resolve_dns_qualifies_and_reports (h domain : string) s :
  exists q,
    (~ In "."%char (list_ascii_of_string h) -> q = h +:+ "." +:+ domain)
    /\ (In "."%char (list_ascii_of_string h) -> q = h)
    /\ match gethostbyname (world s) q with
       | (w', inr addr) =>
           resolve_dns gethostbyname (Some h) domain s
           = (set_world w' s,
              Ret {| hostname := Some q; ip := Some addr; valid := true |})
       | (w', inl _) =>
           resolve_dns gethostbyname (Some h) domain s
           = (set_world w' s,
              Ret {| hostname := Some q; ip := None; valid := false |})
       end
    /\ (forall debug rec rest filtered,
          rec !! "name" = Some h -> ignore_host rec = false ->
          domain = default_domain ->
          match gethostbyname (world s) q with
          | (w', inr _) =>
              filter_loop gethostbyname debug (rec :: rest) filtered s
              = filter_loop gethostbyname debug rest (filtered ++ [rec])
                  (set_world w' s)
          | (w', inl _) =>
              filter_loop gethostbyname debug (rec :: rest) filtered s
              = filter_loop gethostbyname debug rest filtered
                  (logged debug (Dropping (Some h)) (set_world w' s))
          end)
    /\ (forall debug raw filtered s0,
          exists s' kept,
            filter_loop gethostbyname debug raw filtered s0
            = (s', Ret (filtered ++ kept))
            /\ sublist kept raw).
Proof.
  exists (if negb (PyStr.contains "." h) then h +:+ "." +:+ domain else h).
  split; [|split; [|split; [|split]]].
  - intros Hnot. destruct (PyStr.contains "." h) eqn:E; [|reflexivity].
    apply contains_In in E. contradiction.
  - intros Hin. apply contains_In in Hin. rewrite Hin. reflexivity.
  - rewrite resolve_dns_run. cbn [qualify].
    destruct (gethostbyname (world s) _) as [w' [e|addr]]; reflexivity.
  - intros debug rec rest filtered Hname Hign ->.
    cbn [filter_loop]. rewrite Hign, Hname. unfold bind at 1 3.
    rewrite resolve_dns_run. cbn [qualify].
    destruct (gethostbyname (world s) _) as [w' [e|addr]]; cbn [valid negb].
    + rewrite bind_debug_print. reflexivity.
    + reflexivity.
  - intros debug raw filtered s0.
    destruct (filter_loop_run debug raw filtered s0) as (s' & kept & E & Hsub & _).
    eauto.
Qed.

(** C10. [resolve_dns] returns a result on every input, a missing
    hostname included: no exception and no exit leaves it, and only the
    environment has changed.  The result is valid exactly when the name
    could be formed and its lookup succeeded; otherwise it carries no
    address, and [main] drops the record and goes on. *)
Theorem resolve_dns_total (hostname : option string) (domain : string) s :
  exists s' r,
    resolve_dns gethostbyname hostname domain s = (s', Ret r)
    /\ heap s' = heap s /\ stdout s' = stdout s /\ stderr s' = stderr s
    /\ (valid r = true
        <-> exists q addr,
              qualify hostname domain = inr q
              /\ snd (gethostbyname (world s) q) = inr addr)
    /\ (valid r = false -> ip r = None)
    /\ (hostname = None
        -> r = {| hostname := None; ip := None; valid := false |})
    /\ (forall debug rec rest filtered,
          rec !! "name" = hostname -> ignore_host rec = false ->
          domain = default_domain -> valid r = false ->
          filter_loop gethostbyname debug (rec :: rest) filtered s
          = filter_loop gethostbyname debug rest filtered
              (logged debug (Dropping hostname) s')).
Proof.
  pose proof (resolve_dns_run hostname domain s) as E.
  destruct (qualify hostname domain) as [e|q] eqn:Hq;
    [|destruct (gethostbyname (world s) q) as [w' [e|addr]] eqn:Hg];
    eexists _, _; (split; [exact E|]);
    (split; [reflexivity|]); (split; [reflexivity|]); (split; [reflexivity|]);
    cbn [valid ip]; (split; [split|split; [|split]]).
  - discriminate.
  - intros (q' & addr & [=] & _).
  - reflexivity.
  - intros ->. reflexivity.
  - intros debug rec rest filtered Hname Hign -> _.
    cbn [filter_loop]. rewrite Hign. unfold bind at 1. rewrite Hname, E.
    cbn [valid negb]. rewrite bind_debug_print. reflexivity.
  - discriminate.
  - intros (q' & addr & [= <-] & Hsnd). rewrite Hg in Hsnd. discriminate.
  - reflexivity.
  - intros ->. discriminate.
  - intros debug rec rest filtered Hname Hign -> _.
    cbn [filter_loop]. rewrite Hign. unfold bind at 1. rewrite Hname, E.
    cbn [valid negb]. rewrite bind_debug_print. reflexivity.
  - intros _. exists q, addr. rewrite Hg. auto.
  - reflexivity.
  - discriminate.
  - intros ->. discriminate.
  - intros debug rec rest filtered _ _ _ [=].
Qed.

(** C9. Every hostname of the printed document, under ["all"] as under
    any group, is the [name] value of a retrieved record that was not
    ignored; the document is the inventory of kept records alone, so
    neither the qualified name nor the address of a lookup enters it. *)
Theorem inventory_hostnames_are_record_names (args : Args) w
    (doc : Document) (g : string) (hs : list string) (n : string) :
  In doc (stdout (fst (main gethostbyname requests_get args (initial w)))) ->
  In (g, hs) doc -> In n hs ->
  exists raw filtered r,
    retrieval requests_get (os_filter args) (limit args) w = inr raw
    /\ sublist filtered raw
    /\ inventory_of filtered = inr doc
    /\ In r filtered /\ In r raw
    /\ r !! "name" = Some n
    /\ ignore_host r = false.
Proof.
  intros Hdoc Hg Hn. pose proof (main_run args w) as H.
  destruct (retrieval requests_get (os_filter args) (limit args) w) as [e|raw].
  - destruct H as (s' & E & Hout & _). rewrite E in Hdoc. simpl in Hdoc.
    rewrite Hout in Hdoc. destruct Hdoc.
  - destruct H as (s' & filtered & doc' & E & Hout & Hsub & Hkept & Hinv).
    rewrite E in Hdoc. simpl in Hdoc. rewrite Hout in Hdoc.
    destruct Hdoc as [<-|[]].
    destruct (inventory_of_names filtered doc' Hinv g hs n Hg Hn) as (r & Hr & Hname).
    exists raw, filtered, r. repeat split; try assumption.
    + apply list_elem_of_In. eapply elem_of_sublist; [|exact Hsub].
      apply list_elem_of_In, Hr.
    + rewrite Forall_forall in Hkept. apply list_elem_of_In, Hkept in Hr. apply Hr.
Qed.

End ProgramFacts.

(** ** Sample runs *)

Example ignore_host_denied_name :
  ignore_host {[ "name" := "DRHOST01"; "u_patching_group" := "webservers" ]} = true.
Proof. vm_compute. reflexivity. Qed.

Example ignore_host_kept :
  ignore_host {[ "name" := "web01"; "u_patching_group" := "webservers" ]} = false.
Proof. vm_compute. reflexivity. Qed.

Example inventory_of_scenario :
  inventory_of [mk_host "web01" "webservers"; mk_host "db01" "dbteam"]
  = inr [("all", ["web01"; "db01"]); ("webservers", ["web01"]); ("dbteam", ["db01"])].
Proof. vm_compute. reflexivity. Qed.

Example inventory_of_all_collision :
  inventory_of [mk_host "w1" "web"; mk_host "a1" "all"; mk_host "d1" "db"]
  = inr [("all", ["a1"; "a1"; "d1"]); ("web", ["w1"]); ("db", ["d1"])].
Proof. vm_compute. reflexivity. Qed.

Example lower_kelvin_sign : PyStr.lower kelvin_backup01 = "backup01".
Proof. vm_compute. reflexivity. Qed.

(** The capital sigma at the end of a word and elsewhere, and the
    capital I with dot, which becomes two code points. *)
Example lower_final_sigma :
  PyStr.lower (PyStr.encode [0x391; 0x3A3; 0x20; 0x3A3; 0x391]%N)
  = PyStr.encode [0x3B1; 0x3C2; 0x20; 0x3C3; 0x3B1]%N.
Proof. vm_compute. reflexivity. Qed.

Example lower_dotted_capital_i :
  PyStr.lower (PyStr.encode [0x130]%N) = PyStr.encode [0x69; 0x307]%N.
Proof. vm_compute. reflexivity. Qed.

Example ignore_host_kelvin_sign :
  ignore_host (mk_host kelvin_backup01 "webservers") = true.
Proof. vm_compute. reflexivity. Qed.

Example ignore_host_denied_group_any_case :
  ignore_host (mk_host "app01" "Do_Not_Patch") = true.
Proof. vm_compute. reflexivity. Qed.

Example main_drops_kelvin_sign_host :
  stdout (fst (main sample_gethostbyname kelvin_requests_get sample_args (initial tt)))
  = [[("all", ["web01"]); ("webservers", ["web01"])]].
Proof. vm_compute. reflexivity. Qed.

Example group_keys_case_sensitive :
  inventory_of [mk_host "a" "Web"; mk_host "b" "web"]
  = inr [("all", ["a"; "b"]); ("Web", ["a"]); ("web", ["b"])].
Proof. vm_compute. reflexivity. Qed.

Example resolve_dns_short_name :
  resolve_dns sample_gethostbyname (Some "web01") default_domain (initial tt)
  = (initial tt,
     Ret {| hostname := Some "web01.example.com"; ip := Some "10.0.0.7";
            valid := true |}).
Proof. vm_compute. reflexivity. Qed.

Example resolve_dns_missing_name :
  resolve_dns sample_gethostbyname None default_domain (initial tt)
  = (initial tt, Ret {| hostname := None; ip := None; valid := false |}).
Proof. vm_compute. reflexivity. Qed.

Example main_sample_run :
  main sample_gethostbyname sample_requests_get sample_args (initial tt)
  = ({| world := tt;
        heap := [["web01"]; ["db01"]; ["web01"; "db01"]];
        stdout := [[("all", ["web01"; "db01"]); ("webservers", ["web01"]);
                    ("dbteam", ["db01"])]];
        stderr := [Starting; Retrieved 5; Ignoring (Some "drhost01");
                   Dropping (Some "ghost01"); Ignoring (Some "app01");
                   Total 2; Grouped ["webservers"; "dbteam"]; Complete] |},
     Ret tt).
Proof. vm_compute. reflexivity. Qed.

Example main_failed_retrieval :
  main sample_gethostbyname failing_requests_get sample_args (initial tt)
  = ({| world := tt; heap := []; stdout := [];
        stderr := [Starting; QueryFailed (Failure "connection refused")] |},
     Exit 1).
Proof. vm_compute. reflexivity. Qed.

(** ** Instances of the conditional statements *)

Lemma name_of_mk_host (n g : string) : name_of (mk_host n g) = Some n.
Proof. unfold name_of, mk_host. apply lookup_insert_eq. Qed.

Lemma group_of_mk_host (n g : string) : group_of (mk_host n g) = Some g.
Proof.
  unfold group_of, mk_host. rewrite lookup_insert_ne by discriminate.
  apply lookup_singleton_eq.
Qed.

Lemma mk_host_well_formed (n g : string) : well_formed (mk_host n g).
Proof.
  split; [rewrite name_of_mk_host | rewrite group_of_mk_host]; eauto.
Qed.

Lemma sample_records_well_formed : Forall well_formed sample_records.
Proof. unfold sample_records. repeat constructor; apply mk_host_well_formed. Defined.

Lemma sample_records_no_all :
  Forall (fun h => group_of h <> Some "all") sample_records.
Proof.
  unfold sample_records.
  repeat constructor; rewrite group_of_mk_host; discriminate.
Defined.

Lemma all_counts_named_occurrences_witness :
  Forall well_formed sample_records
  /\ Forall (fun h => group_of h <> Some "all") sample_records
  /\ exists doc,
       inventory_of sample_records = inr doc
       /\ (forall g n,
             g <> "all" ->
             occurrences n (default [] (dict_get g doc))
             = length (List.filter (same_group_and_name g n) sample_records))
       /\ (forall n, occurrences n (all_hosts_of doc) = occurrences_in_named n doc)
       /\ (forall n, In n (all_hosts_of doc) -> 1 <= length (groups_holding n doc)).
Proof.
  split; [exact sample_records_well_formed|].
  split; [exact sample_records_no_all|].
  exact (all_counts_named_occurrences sample_records
           sample_records_well_formed sample_records_no_all).
Defined.

Lemma distribute_hosts_stable_partition_witness :
  Forall well_formed sample_records
  /\ exists d hp,
       distribute_hosts sample_records [] = inr (d, hp)
       /\ dict_get "webservers" (grouped d hp) = Some ["web01"; "web02"; "web01"].
Proof.
  split; [exact sample_records_well_formed|].
  destruct (distribute_hosts_stable_partition sample_records
              sample_records_well_formed) as (d & hp & E & Hget & _).
  exists d, hp. split; [exact E|].
  rewrite Hget; [vm_compute; reflexivity|].
  assert (d = [("webservers", 0); ("dbteam", 1)]) as ->
    by (vm_compute in E; congruence).
  simpl. auto.
Defined.

Lemma distribute_hosts_no_dedup_verbatim_witness :
  Forall well_formed sample_records
  /\ exists d hp,
       distribute_hosts sample_records [] = inr (d, hp)
       /\ occurrences "web01" (default [] (dict_get "webservers" (grouped d hp))) = 2.
Proof.
  split; [exact sample_records_well_formed|].
  destruct (distribute_hosts_no_dedup_verbatim sample_records
              sample_records_well_formed) as (d & hp & E & Hocc & _).
  exists d, hp. split; [exact E|].
  rewrite Hocc. vm_compute. reflexivity.
Defined.

Lemma inventory_hostnames_are_record_names_witness :
  exists raw filtered r,
    retrieval sample_requests_get (os_filter sample_args) (limit sample_args) tt
    = inr raw
    /\ sublist filtered raw
    /\ inventory_of filtered
       = inr [("all", ["web01"; "db01"]); ("webservers", ["web01"]);
              ("dbteam", ["db01"])]
    /\ In r filtered /\ In r raw
    /\ r !! "name" = Some "db01"
    /\ ignore_host r = false.
Proof.
  apply (inventory_hostnames_are_record_names
           sample_gethostbyname sample_requests_get sample_args tt
           [("all", ["web01"; "db01"]); ("webservers", ["web01"]);
            ("dbteam", ["db01"])]
           "all" ["web01"; "db01"] "db01").
  - vm_compute. left. reflexivity.
  - simpl. auto.
  - simpl. auto.
Defined.

(** * Further properties of the code *)

(** ** Grouping: missing fields *)

Lemma distribute_loop_app (rs1 rs2 : list HostRecord) (st : dict loc * Heap) :
  distribute_loop (rs1 ++ rs2) st
  = match distribute_loop rs1 st with
    | inl e => inl e
    | inr st' => distribute_loop rs2 st'
    end.
Proof.
  revert st. induction rs1 as [|h rs1 IH]; intros st; [reflexivity|].
  cbn [app distribute_loop]. destruct (distribute_step h st); [reflexivity | apply IH].
Qed.

Lemma distribute_step_returns_well_formed (h : HostRecord) (st st' : dict loc * Heap) :
  distribute_step h st = inr st' -> well_formed h.
Proof.
  destruct st as [d hp]. unfold distribute_step, well_formed, name_of, group_of.
  destruct (h !! "u_patching_group") as [g|]; [|discriminate].
  destruct (setdefault_list g d hp) as [[l d1] hp1].
  destruct (h !! "name") as [n|]; [eauto | discriminate].
Qed.

Lemma distribute_step_incomplete (h : HostRecord) (st : dict loc * Heap) :
  ~ well_formed h ->
  distribute_step h st
  = inl (KeyError (match group_of h with
                   | None => "u_patching_group"
                   | Some _ => "name"
                   end)).
Proof.
  destruct st as [d hp]. unfold distribute_step, well_formed, name_of, group_of.
  intros Hnot. destruct (h !! "u_patching_group") as [g|]; [|reflexivity].
  destruct (setdefault_list g d hp) as [[l d1] hp1].
  destruct (h !! "name") as [n|]; [|reflexivity].
  exfalso. apply Hnot. eauto.
Qed.

(** X1. [distribute_hosts] returns exactly when every record has both
    fields.  Otherwise it raises [KeyError] at the first incomplete
    record, for the group field if that is missing and else for the name
    field, whatever follows in the input. *)
Theorem distribute_hosts_returns_iff_complete (rs : list HostRecord) (hp : Heap) :
  ((exists d hp', distribute_hosts rs hp = inr (d, hp')) <-> Forall well_formed rs)
  /\ (forall pre h post,
        rs = pre ++ h :: post -> Forall well_formed pre -> ~ well_formed h ->
        distribute_hosts rs hp
        = inl (KeyError (match group_of h with
                         | None => "u_patching_group"
                         | Some _ => "name"
                         end))).
Proof.
  assert (heap_ok [] hp) as Hok0
    by (split; simpl; [apply NoDup_nil_2 | apply Forall_nil_2]).
  split; [split|].
  - unfold distribute_hosts. generalize (@nil (string * loc), hp).
    induction rs as [|h rs IH]; intros st (d & hp' & E); [apply Forall_nil_2|].
    cbn [distribute_loop] in E.
    destruct (distribute_step h st) as [e|st'] eqn:E1; [discriminate|].
    apply Forall_cons. split.
    + eapply distribute_step_returns_well_formed, E1.
    + apply (IH st'). eauto.
  - intros Hwf.
    destruct (distribute_loop_refines rs [] hp Hwf Hok0) as (d & hp' & E & _).
    exists d, hp'. exact E.
  - intros pre h post -> Hpre Hh. unfold distribute_hosts.
    rewrite distribute_loop_app.
    destruct (distribute_loop_refines pre [] hp Hpre Hok0) as (d & hp' & E & _).
    rewrite E. cbn [distribute_loop].
    rewrite distribute_step_incomplete by exact Hh. reflexivity.
Qed.

(** ** Grouping: the list objects it creates *)

Lemma list_append_fresh (hp : Heap) (n : string) :
  list_append (length hp) n (hp ++ [[]]) = hp ++ [[n]].
Proof.
  unfold list_append. rewrite deref_fresh. simpl.
  replace (length hp) with (length hp + 0) at 1 by lia.
  rewrite insert_app_r. reflexivity.
Qed.

Lemma distribute_step_fresh (base news : Heap) (h : HostRecord) (d : dict loc) :
  well_formed h -> NoDup (map snd d) ->
  Forall (fun l => length base <= l < length base + length news) (map snd d) ->
  length news = length d ->
  exists d' news',
    distribute_step h (d, base ++ news) = inr (d', base ++ news')
    /\ NoDup (map snd d')
    /\ Forall (fun l => length base <= l < length base + length news') (map snd d')
    /\ length news' = length d'.
Proof.
  intros [[n Hn] [g Hg]] Hnd Hrange Hlen. unfold name_of, group_of in *.
  unfold distribute_step, setdefault_list. rewrite Hg, Hn.
  destruct (dict_get g d) as [l|] eqn:Hget.
  - assert (length base <= l < length base + length news) as Hl.
    { rewrite Forall_forall in Hrange. apply Hrange.
      rewrite list_elem_of_In. eapply dict_get_In_snd, Hget. }
    exists d, (<[l - length base := deref (base ++ news) l ++ [n]]> news).
    unfold list_append. rewrite insert_app_r_alt by lia.
    rewrite length_insert. auto.
  - unfold alloc. rewrite dict_set_absent by exact Hget.
    rewrite list_append_fresh, <- app_assoc.
    exists (d ++ [(g, length (base ++ news))]), (news ++ [[n]]).
    split; [reflexivity|]. rewrite map_app, !length_app. simpl.
    split; [|split; [|lia]].
    + apply NoDup_app. split; [exact Hnd|]. split; [|apply NoDup_singleton].
      intros x Hx Hx'. apply list_elem_of_singleton in Hx'. subst x.
      rewrite Forall_forall in Hrange. apply Hrange in Hx. lia.
    + apply Forall_app. split.
      * eapply Forall_impl; [exact Hrange|]. simpl. intros; lia.
      * apply Forall_singleton. lia.
Qed.

Lemma distribute_loop_fresh (base news : Heap) (rs : list HostRecord) (d : dict loc) :
  Forall well_formed rs -> NoDup (map snd d) ->
  Forall (fun l => length base <= l < length base + length news) (map snd d) ->
  length news = length d ->
  exists d' news',
    distribute_loop rs (d, base ++ news) = inr (d', base ++ news')
    /\ NoDup (map snd d')
    /\ Forall (fun l => length base <= l < length base + length news') (map snd d')
    /\ length news' = length d'.
Proof.
  revert d news. induction rs as [|h rs IH]; intros d news Hwf Hnd Hrange Hlen.
  - exists d, news. simpl. auto.
  - apply Forall_cons in Hwf as [Hh Hwf].
    destruct (distribute_step_fresh base news h d Hh Hnd Hrange Hlen)
      as (d1 & news1 & E1 & Hnd1 & Hrange1 & Hlen1).
    destruct (IH d1 news1 Hwf Hnd1 Hrange1 Hlen1) as (d2 & news2 & E2 & H2).
    exists d2, news2. cbn [distribute_loop]. rewrite E1, E2. auto.
Qed.

(** X2. [distribute_hosts] leaves every list object that exists before
    the call as it is: the store after it is the store before it followed
    by new lists, one for each group, and no two groups share a list. *)
Theorem distribute_hosts_allocates_one_list_per_group
    (rs : list HostRecord) (hp : Heap) :
  Forall well_formed rs ->
  exists d news,
    distribute_hosts rs hp = inr (d, hp ++ news)
    /\ NoDup (map snd d)
    /\ Forall (fun l => length hp <= l < length hp + length news) (map snd d)
    /\ length news = length d.
Proof.
  intros Hwf. unfold distribute_hosts.
  destruct (distribute_loop_fresh hp [] rs [] Hwf) as (d & news & E & H).
  - apply NoDup_nil_2.
  - apply Forall_nil_2.
  - reflexivity.
  - rewrite app_nil_r in E. exists d, news. auto.
Qed.

(** ** Assembly: the document in full *)

Lemma build_loop_store (items : dict loc) (inv : dict GroupEntry)
    (hp : Heap) (a : loc) :
  dict_get "all" inv = Some {| hosts := a |} -> a < length hp ->
  Forall (fun kv => fst kv <> "all" /\ snd kv <> a) items ->
  build_loop items (inv, hp)
  = inr (fold_left set_entry items inv,
         <[a := deref hp a ++ concat (map (fun kv => deref hp (snd kv)) items)]> hp).
Proof.
  revert inv hp. induction items as [|[g l] items IH]; intros inv hp Hall Ha Hitems.
  - simpl. rewrite app_nil_r. unfold deref.
    destruct (lookup_lt_is_Some_2 hp a Ha) as [v Hv]. rewrite Hv. simpl.
    rewrite list_insert_id by exact Hv. reflexivity.
  - apply Forall_cons in Hitems as [[Hg Hl] Hitems]. simpl in Hg, Hl.
    cbn [build_loop fold_left]. unfold build_step.
    assert (dict_get "all" (set_entry inv (g, l)) = Some {| hosts := a |}) as Hall'.
    { unfold set_entry. simpl. rewrite dict_get_set_ne by congruence. exact Hall. }
    pose proof Hall' as Hall''. unfold set_entry in Hall''. simpl in Hall''.
    rewrite Hall''. cbn [hosts].
    fold (set_entry inv (g, l)).
    rewrite IH; [| exact Hall' | unfold list_extend; rewrite length_insert; exact Ha
                 | exact Hitems].
    f_equal. f_equal. unfold list_extend.
    rewrite list_insert_insert_eq. f_equal.
    rewrite deref_insert_eq by exact Ha.
    cbn [map concat snd]. rewrite <- app_assoc. f_equal. f_equal. f_equal.
    apply map_ext_in. intros kv Hkv. apply deref_insert_ne.
    rewrite Forall_forall in Hitems.
    apply list_elem_of_In, Hitems in Hkv. intros Heq. apply Hkv. auto.
Qed.

(** X3. With distinct group keys, none of them ["all"], the assembler is
    fully determined: the inventory has ["all"] first and then the groups
    in their order, each entry holding the very list object the grouped
    input holds; the only change to the store is one new list, the
    concatenation of the groups' hosts, so the grouped input is not
    modified. *)
Theorem build_ansible_inventory_shares_group_lists (d : dict loc) (hp : Heap) :
  heap_ok d hp -> NoDup (dict_keys d) -> ~ In "all" (dict_keys d) ->
  build_ansible_inventory d hp
  = inr (("all", {| hosts := length hp |})
           :: map (fun kv => (fst kv, {| hosts := snd kv |})) d,
         hp ++ [concat (map snd (grouped d hp))]).
Proof.
  intros [Hnd Hlt] Hkeys Hall. unfold build_ansible_inventory, alloc.
  rewrite (build_loop_store d _ _ (length hp)).
  - rewrite fold_set_entry_fresh.
    + f_equal. f_equal.
      rewrite deref_fresh. cbn [app].
      replace (length hp) with (length hp + 0) at 1 by lia.
      rewrite insert_app_r. cbn [insert list_insert]. f_equal. f_equal. f_equal.
      unfold grouped. rewrite map_map. apply map_ext_in. intros kv Hkv. simpl.
      apply deref_app_l. rewrite Forall_forall in Hlt.
      apply Hlt, list_elem_of_In, in_map, Hkv.
    + exact Hkeys.
    + intros k Hk. simpl.
      destruct (String.eqb_spec k "all") as [->|_]; [contradiction | reflexivity].
  - reflexivity.
  - rewrite length_app. simpl. lia.
  - rewrite Forall_forall. intros kv Hkv. split.
    + intros Heq. apply Hall. rewrite <- Heq. unfold dict_keys.
      apply in_map, list_elem_of_In, Hkv.
    + rewrite Forall_forall in Hlt.
      assert (snd kv < length hp) as H; [|lia].
      apply Hlt, list_elem_of_In, in_map, list_elem_of_In, Hkv.
Qed.

(** ** The keys of the document *)

Lemma distribute_loop_returns_well_formed (rs : list HostRecord)
    (st st' : dict loc * Heap) :
  distribute_loop rs st = inr st' -> Forall well_formed rs.
Proof.
  revert st. induction rs as [|h rs IH]; intros st E; [apply Forall_nil_2|].
  cbn [distribute_loop] in E.
  destruct (distribute_step h st) as [e|st1] eqn:E1; [discriminate|].
  apply Forall_cons. split.
  - eapply distribute_step_returns_well_formed, E1.
  - eapply IH, E.
Qed.

Lemma build_loop_entries (items : dict loc) (inv inv' : dict GroupEntry)
    (hp hp' : Heap) :
  build_loop items (inv, hp) = inr (inv', hp') ->
  inv' = fold_left set_entry items inv.
Proof.
  revert inv hp. induction items as [|[g l] items IH]; intros inv hp E.
  - injection E as <- _. reflexivity.
  - cbn [build_loop] in E. unfold build_step in E.
    destruct (dict_get "all" (dict_set g {| hosts := l |} inv)); [|discriminate].
    apply IH in E. exact E.
Qed.

Lemma dict_set_keys {V : Type} (k : string) (v : V) (d : dict V) :
  dict_keys (dict_set k v d)
  = if PyStr.mem k (dict_keys d) then dict_keys d else dict_keys d ++ [k].
Proof.
  unfold dict_keys. induction d as [|[k' v'] d IH]; simpl; [reflexivity|].
  destruct (String.eqb k k'); simpl; [reflexivity|].
  rewrite IH. destruct (PyStr.mem k (map fst d)); reflexivity.
Qed.

Lemma fold_set_entry_keys (items : dict loc) (inv : dict GroupEntry) :
  NoDup (dict_keys inv) ->
  NoDup (dict_keys (fold_left set_entry items inv))
  /\ hd_error (dict_keys (fold_left set_entry items inv))
     = match inv with
       | [] => hd_error (dict_keys items)
       | kv :: _ => Some (fst kv)
       end
  /\ (forall g, In g (dict_keys (fold_left set_entry items inv))
                <-> In g (dict_keys inv) \/ In g (dict_keys items)).
Proof.
  revert inv. induction items as [|[k l] items IH]; intros inv Hnd.
  - simpl. split; [exact Hnd|]. split; [destruct inv; reflexivity | tauto].
  - cbn [fold_left].
    assert (dict_keys (set_entry inv (k, l))
            = if PyStr.mem k (dict_keys inv) then dict_keys inv
              else dict_keys inv ++ [k]) as Hkeys
      by (unfold set_entry; apply dict_set_keys).
    assert (NoDup (dict_keys (set_entry inv (k, l)))) as Hnd'.
    { rewrite Hkeys. destruct (PyStr.mem k (dict_keys inv)) eqn:Hm; [exact Hnd|].
      apply NoDup_app. split; [exact Hnd|]. split; [|apply NoDup_singleton].
      intros x Hx Hx'. apply list_elem_of_singleton in Hx'. subst x.
      apply list_elem_of_In, mem_In in Hx. congruence. }
    destruct (IH _ Hnd') as (H1 & H2 & H3). split; [exact H1|]. split.
    + rewrite H2. unfold set_entry. simpl.
      destruct inv as [|[k0 v0] inv]; simpl; [reflexivity|].
      destruct (String.eqb k k0); reflexivity.
    + intros g. rewrite H3, Hkeys. simpl.
      destruct (PyStr.mem k (dict_keys inv)) eqn:Hm.
      * apply mem_In in Hm. split; [tauto|].
        intros [H|[<-|H]]; auto.
      * rewrite in_app_iff. simpl. tauto.
Qed.

Lemma render_keys (inv : dict GroupEntry) (hp : Heap) :
  dict_keys (render inv hp) = dict_keys inv.
Proof. unfold dict_keys, render. rewrite map_map. reflexivity. Qed.

Lemma inventory_of_keys (rs : list HostRecord) (doc : Document) :
  inventory_of rs = inr doc ->
  hd_error (dict_keys doc) = Some "all"
  /\ NoDup (dict_keys doc)
  /\ (forall g, In g (dict_keys doc)
                <-> g = "all" \/ exists h, In h rs /\ group_of h = Some g).
Proof.
  unfold inventory_of. intros E.
  destruct (distribute_hosts rs []) as [e|[d hp]] eqn:Ed; [discriminate|].
  pose proof (distribute_loop_returns_well_formed _ _ _ Ed) as Hwf.
  destruct (distribute_hosts_refines rs Hwf) as (d0 & hp0 & Ed0 & _ & G).
  rewrite Ed in Ed0. injection Ed0 as <- <-.
  unfold build_ansible_inventory, alloc in E.
  destruct (build_loop d _) as [e|[inv hp']] eqn:Eb; [discriminate|].
  injection E as <-. apply build_loop_entries in Eb. subst inv.
  rewrite render_keys.
  destruct (fold_set_entry_keys d [("all", {| hosts := length hp |})])
    as (H1 & H2 & H3).
  { apply NoDup_singleton. }
  split; [exact H2|]. split; [exact H1|].
  intros g. rewrite H3. simpl.
  rewrite <- (grouped_keys d hp), G, grouping_keys. split.
  - intros [[<-|[]]|(h & n & Hh & Hg & _)]; eauto.
  - intros [->|(h & Hh & Hg)]; [auto|]. right.
    rewrite Forall_forall in Hwf.
    destruct (Hwf h) as [[n Hn] _]; [apply list_elem_of_In, Hh|]. eauto.
Qed.

(** X4. Whatever the groups are called, a document that is produced has
    ["all"] as its first key and no key twice, and its keys are ["all"]
    and the group strings of the records. *)
Theorem inventory_keys_all_first_and_distinct (rs : list HostRecord)
    (doc : Document) :
  inventory_of rs = inr doc ->
  hd_error (dict_keys doc) = Some "all"
  /\ NoDup (dict_keys doc)
  /\ (forall g, In g (dict_keys doc)
                <-> g = "all" \/ exists h, In h rs /\ group_of h = Some g).
Proof. apply inventory_of_keys. Qed.

(** ** Every record is listed once *)

Lemma dict_set_concat_perm (G : Document) (g n : string) (hs : list string) :
  dict_get g G = Some hs ->
  Permutation (concat (map snd (dict_set g (hs ++ [n]) G)))
              (concat (map snd G) ++ [n]).
Proof.
  induction G as [|[k v] G IH]; simpl; [discriminate|].
  destruct (String.eqb k g) eqn:E; rewrite String.eqb_sym in E; rewrite E.
  - intros [= ->]. simpl. rewrite <- !app_assoc.
    apply Permutation_app_head, Permutation_app_comm.
  - intros H. simpl. rewrite <- app_assoc.
    apply Permutation_app_head, IH, H.
Qed.

Lemma add_host_concat_perm (G : Document) (g n : string) :
  Permutation (concat (map snd (add_host G g n))) (concat (map snd G) ++ [n]).
Proof.
  unfold add_host. destruct (dict_get g G) as [hs|] eqn:E.
  - apply dict_set_concat_perm, E.
  - rewrite map_app, concat_app. simpl. reflexivity.
Qed.

Lemma grouping_from_concat_perm (rs : list HostRecord) (G : Document) :
  Forall well_formed rs ->
  Permutation (concat (map snd (fold_left grouping_step rs G)))
              (concat (map snd G) ++ omap name_of rs).
Proof.
  revert G. induction rs as [|h rs IH]; intros G Hwf.
  - simpl. rewrite app_nil_r. reflexivity.
  - apply Forall_cons in Hwf as [[[n Hn] [g Hg]] Hwf].
    cbn [fold_left omap list_omap]. rewrite (IH _ Hwf).
    unfold grouping_step. rewrite Hg, Hn.
    rewrite add_host_concat_perm, <- app_assoc. reflexivity.
Qed.

(** X5. With no group named ["all"], the list under ["all"] is a
    rearrangement of the names of the records: every record is listed
    once, none is lost and none is added, so the list is as long as the
    input. *)
Theorem all_hosts_rearranges_record_names (rs : list HostRecord) :
  Forall well_formed rs ->
  Forall (fun h => group_of h <> Some "all") rs ->
  exists doc,
    inventory_of rs = inr doc
    /\ Permutation (all_hosts_of doc) (omap name_of rs)
    /\ length (all_hosts_of doc) = length rs.
Proof.
  intros Hwf Hall. eexists. split; [apply inventory_of_no_all; assumption|].
  rewrite all_hosts_of_cons.
  pose proof (grouping_from_concat_perm rs [] Hwf) as HP. simpl in HP.
  fold (grouping rs) in HP. split; [exact HP|].
  rewrite (Permutation_length HP).
  clear HP Hall. induction rs as [|h rs IH]; [reflexivity|].
  apply Forall_cons in Hwf as [[[n Hn] _] Hwf].
  cbn [omap list_omap]. rewrite Hn. simpl. rewrite IH by exact Hwf. reflexivity.
Qed.

(** ** The filter once more *)

Lemma mem_false_not_In (x : string) (l : list string) :
  PyStr.mem x l = false -> ~ In x l.
Proof. intros H Hin. apply mem_In in Hin. congruence. Qed.

Lemma ignore_host_false_inv (h : HostRecord) :
  ignore_host h = false ->
  ~ In (PyStr.lower (get_or_empty h "name")) IGNORE_HOSTS
  /\ ~ In (PyStr.lower (get_or_empty h "u_patching_group")) IGNORE_GROUPS
  /\ get_or_empty h "u_patching_group" <> "".
Proof.
  unfold ignore_host. cbv zeta. intros H.
  apply orb_false_iff in H as [H Htruthy].
  apply orb_false_iff in H as [Hname Hgroup].
  split; [apply mem_false_not_In, Hname|].
  split; [apply mem_false_not_In, Hgroup|].
  intros Hempty. rewrite Hempty in Htruthy. discriminate.
Qed.

Lemma contains_append_dot (s1 s2 : string) :
  PyStr.contains "." (s1 +:+ "." +:+ s2) = true.
Proof.
  induction s1 as [|c s1 IH]; [reflexivity|].
  change (PyStr.contains "." (String c (s1 +:+ "." +:+ s2)) = true).
  cbn [PyStr.contains]. destruct (Ascii.eqb _ c); [reflexivity | exact IH].
Qed.

(** ** The run in detail *)

Section ProgramMore.

Context {World : Type}.
Variable gethostbyname : World -> string -> World * (exn + string).
Variable requests_get : World -> string -> World * (exn + Response).

Implicit Types (s : @State World) (w : World).

Lemma stderr_logged (debug : bool) (m : Diag) s :
  stderr (logged debug m s) = stderr s ++ (if debug then [m] else []).
Proof. destruct debug; simpl; [reflexivity | rewrite app_nil_r; reflexivity]. Qed.

Lemma servicenow_query_run_world (os_filter : string) (limit : Z) s :
  servicenow_query requests_get os_filter limit s
  = match retrieval requests_get os_filter limit (world s) with
    | inl e =>
        (add_stderr (QueryFailed e)
           (set_world (world_after_request requests_get os_filter limit (world s)) s),
         Exit 1)
    | inr raw =>
        (set_world (world_after_request requests_get os_filter limit (world s)) s,
         Ret raw)
    end.
Proof.
  unfold servicenow_query, retrieval, world_after_request, try_except, bind,
    call_world, lift_sum, ret, raise, print_stderr, sys_exit. cbv zeta.
  match goal with
  | |- context [requests_get (world s) ?u] =>
      destruct (requests_get (world s) u) as [w' [e|response]]
  end; simpl; [reflexivity|].
  destruct (status_error response) as [e|]; [reflexivity|].
  destruct (json_result response) as [e|body]; reflexivity.
Qed.

(** The loop of [main] with what it writes: one line for each record it
    discards when [debug] is set, nothing otherwise. *)
Lemma filter_loop_trace (debug : bool) (raw filtered : list HostRecord) s :
  exists s' kept lines,
    filter_loop gethostbyname debug raw filtered s = (s', Ret (filtered ++ kept))
    /\ stderr s' = stderr s ++ lines
    /\ (debug = false -> lines = [])
    /\ (debug = true -> length lines + length kept = length raw)
    /\ Forall (fun d => is_discard d = true) lines.
Proof.
  revert filtered s. induction raw as [|rec rest IH]; intros filtered s.
  - exists s, [], []. simpl. rewrite !app_nil_r. repeat split; auto.
  - assert (forall m s0,
              is_discard m = true ->
              exists s' kept lines,
                filter_loop gethostbyname debug rest filtered (logged debug m s0)
                = (s', Ret (filtered ++ kept))
                /\ stderr s' = stderr s0 ++ lines
                /\ (debug = false -> lines = [])
                /\ (debug = true -> length lines + length kept = S (length rest))
                /\ Forall (fun d => is_discard d = true) lines) as Hskip.
    { intros m s0 Hm.
      destruct (IH filtered (logged debug m s0)) as (s' & kept & lines & E & Herr & Hq & Hd & Hl).
      exists s', kept, ((if debug then [m] else []) ++ lines).
      split; [exact E|]. split; [rewrite Herr, stderr_logged, <- app_assoc; reflexivity|].
      split; [intros ->; simpl; auto|]. split.
      - intros ->. simpl. rewrite <- Hd by reflexivity. lia.
      - apply Forall_app. split; [|exact Hl].
        destruct debug; [apply Forall_singleton, Hm | apply Forall_nil_2]. }
    cbn [filter_loop length]. destruct (ignore_host rec) eqn:Hign.
    + rewrite bind_debug_print. apply Hskip. reflexivity.
    + unfold bind at 1. rewrite resolve_dns_run.
      destruct (qualify (rec !! "name") default_domain) as [e|q] eqn:Hq.
      * cbn [valid negb]. rewrite bind_debug_print. apply Hskip. reflexivity.
      * destruct (gethostbyname (world s) q) as [w' [e|addr]]; cbn [valid negb].
        -- rewrite bind_debug_print.
           destruct (Hskip (Dropping (rec !! "name")) (set_world w' s) eq_refl)
             as (s' & kept & lines & E & H).
           exists s', kept, lines. split; [exact E | exact H].
        -- destruct (IH (filtered ++ [rec]) (set_world w' s))
             as (s' & kept & lines & E & Herr & Hquiet & Hd & Hl).
           exists s', (rec :: kept), lines. rewrite E, <- app_assoc.
           split; [reflexivity|]. split; [exact Herr|]. split; [exact Hquiet|].
           split; [|exact Hl]. intros Hdbg. simpl. rewrite <- Hd by exact Hdbg. lia.
Qed.

(** The run by its parts. *)
Lemma main_run_detail (args : Args) w :
  let s0 := logged (debug args) Starting (initial w) in
  let w' := world_after_request requests_get (os_filter args) (limit args) w in
  match retrieval requests_get (os_filter args) (limit args) w with
  | inl e =>
      main gethostbyname requests_get args (initial w)
      = (add_stderr (QueryFailed e) (set_world w' s0), Exit 1)
  | inr raw =>
      exists s2 kept doc s',
        filter_loop gethostbyname (debug args) raw []
          (logged (debug args) (Retrieved (length raw)) (set_world w' s0))
        = (s2, Ret kept)
        /\ inventory_of kept = inr doc
        /\ main gethostbyname requests_get args (initial w) = (s', Ret tt)
        /\ world s' = world s2
        /\ stdout s' = [doc]
        /\ stderr s'
           = stderr s2
             ++ (if debug args
                 then [Total (length kept); Grouped (dict_keys (grouping kept));
                       Complete]
                 else [])
  end.
Proof.
  cbv zeta. set (s0 := logged (debug args) Starting (initial w)).
  assert (world s0 = w) as Hw0 by (unfold s0; rewrite world_logged; reflexivity).
  pose proof (servicenow_query_run_world (os_filter args) (limit args) s0) as E.
  rewrite Hw0 in E.
  set (w' := world_after_request requests_get (os_filter args) (limit args) w) in *.
  destruct (retrieval requests_get (os_filter args) (limit args) w) as [e|raw];
    unfold main; cbv zeta; rewrite bind_debug_print; unfold bind at 1;
    fold s0; rewrite E; [reflexivity|].
  rewrite bind_debug_print. unfold bind at 1.
  set (s1 := logged (debug args) (Retrieved (length raw)) (set_world w' s0)).
  destruct (filter_loop_run gethostbyname (debug args) raw [] s1)
    as (s2 & kept & E2 & Hsub & Hkept & Hheap & Hout).
  cbn [app] in E2. rewrite E2. cbv beta iota.
  rewrite bind_debug_print. unfold bind at 1.
  set (s3 := logged (debug args) (Total (length kept)) s2).
  assert (heap s3 = []) as Hheap3.
  { unfold s3. rewrite heap_logged, Hheap. unfold s1. rewrite heap_logged.
    unfold s0. cbn [heap set_world]. rewrite heap_logged. reflexivity. }
  assert (stdout s3 = []) as Hout3.
  { unfold s3. rewrite stdout_logged, Hout. unfold s1. rewrite stdout_logged.
    unfold s0. cbn [stdout set_world]. rewrite stdout_logged. reflexivity. }
  assert (Forall well_formed kept) as Hwf.
  { eapply Forall_impl; [exact Hkept|]. intros r [Hign Hname].
    split; [exact Hname | apply ignore_host_false_group, Hign]. }
  destruct (inventory_of_kept kept Hkept) as (d & hp & inv & hp' & Ed & Eb & Ei).
  destruct (distribute_hosts_refines kept Hwf) as (d0 & hp0 & Ed0 & _ & G).
  rewrite Ed in Ed0. injection Ed0 as <- <-.
  unfold call_heap at 1. rewrite Hheap3, Ed.
  rewrite bind_debug_print. unfold bind at 1, call_heap at 1.
  rewrite heap_logged. cbn [heap set_heap]. rewrite Eb.
  rewrite bind_debug_print. unfold print_inventory.
  eexists s2, kept, _, _. split; [reflexivity|]. split; [exact Ei|].
  split; [reflexivity|].
  rewrite heap_logged. cbn [heap set_heap add_stdout stdout stderr world].
  rewrite !world_logged. cbn [world set_heap]. rewrite !world_logged.
  cbn [world set_heap].
  rewrite !stdout_logged. cbn [stdout set_heap]. rewrite !stdout_logged.
  cbn [stdout set_heap]. rewrite Hout3.
  rewrite !stderr_logged. cbn [stderr set_heap]. rewrite !stderr_logged.
  cbn [stderr set_heap]. unfold s3. rewrite world_logged, stderr_logged.
  rewrite <- (grouped_keys d hp), G.
  split; [reflexivity|]. split; [reflexivity|].
  destruct (debug args); simpl; rewrite <- ?app_assoc, ?app_nil_r; reflexivity.
Qed.

Lemma filter_loop_debug_irrelevant (raw filtered : list HostRecord)
    (d1 d2 : bool) s1 s2 s1' s2' (r1 r2 : result (list HostRecord)) :
  world s1 = world s2 ->
  filter_loop gethostbyname d1 raw filtered s1 = (s1', r1) ->
  filter_loop gethostbyname d2 raw filtered s2 = (s2', r2) ->
  r1 = r2 /\ world s1' = world s2'.
Proof.
  revert filtered s1 s2. induction raw as [|rec rest IH]; intros filtered s1 s2 Hw E1 E2.
  - simpl in E1, E2. unfold ret in E1, E2.
    injection E1 as <- <-. injection E2 as <- <-. auto.
  - cbn [filter_loop] in E1, E2. destruct (ignore_host rec).
    + rewrite bind_debug_print in E1, E2.
      eapply IH; [|exact E1|exact E2]. rewrite !world_logged. exact Hw.
    + unfold bind at 1 in E1. unfold bind at 1 in E2.
      rewrite resolve_dns_run in E1, E2. rewrite <- Hw in E2.
      destruct (qualify (rec !! "name") default_domain) as [e|q].
      * cbn [valid negb] in E1, E2. rewrite bind_debug_print in E1, E2.
        eapply IH; [|exact E1|exact E2]. rewrite !world_logged. exact Hw.
      * destruct (gethostbyname (world s1) q) as [w' [e|addr]];
          cbn [valid negb] in E1, E2.
        -- rewrite bind_debug_print in E1, E2.
           eapply IH; [|exact E1|exact E2]. rewrite !world_logged. reflexivity.
        -- eapply IH; [|exact E1|exact E2]. reflexivity.
Qed.

Lemma filter_loop_stateless (lookup : string -> exn + string) (debug : bool)
    (raw filtered : list HostRecord) s :
  (forall w q, gethostbyname w q = (w, lookup q)) ->
  exists s',
    filter_loop gethostbyname debug raw filtered s
    = (s', Ret (filtered ++ List.filter (kept_by lookup) raw))
    /\ world s' = world s.
Proof.
  intros Hpure. revert filtered s.
  induction raw as [|rec rest IH]; intros filtered s.
  - exists s. simpl. rewrite app_nil_r. auto.
  - cbn [filter_loop List.filter]. unfold kept_by at 1, resolvable.
    destruct (ignore_host rec); cbn [negb andb].
    + rewrite bind_debug_print.
      destruct (IH filtered (logged debug (Ignoring (rec !! "name")) s)) as (s' & E & Hw).
      exists s'. rewrite E, Hw, world_logged. auto.
    + unfold bind at 1. rewrite resolve_dns_run.
      destruct (qualify (rec !! "name") default_domain) as [e|q].
      * cbn [valid negb]. rewrite bind_debug_print.
        destruct (IH filtered (logged debug (Dropping (rec !! "name")) s)) as (s' & E & Hw).
        exists s'. rewrite E, Hw, world_logged. auto.
      * rewrite Hpure. destruct (lookup q) as [e|addr]; cbn [valid negb].
        -- rewrite bind_debug_print.
           destruct (IH filtered (logged debug (Dropping (rec !! "name")) (set_world (world s) s)))
             as (s' & E & Hw).
           exists s'. rewrite E, Hw, world_logged. auto.
        -- destruct (IH (filtered ++ [rec]) (set_world (world s) s)) as (s' & E & Hw).
           exists s'. rewrite E, Hw, <- app_assoc. auto.
Qed.

(** C8. A failed retrieval ends the run with status 1 after the error
    line on the diagnostic stream, and the primary stream stays empty.
    A successful one runs the whole pipeline, status 0: the retrieved
    records go through the loop of [main], which keeps a subsequence of
    them, none ignored and all with a name, and the one document printed
    is the inventory of exactly the records kept; when the answer of the
    resolver depends on the name only, the records kept are all those
    that are not ignored and whose name resolves. *)
Theorem main_fatal_retrieval_or_one_document (args : Args) w :
  let out := main gethostbyname requests_get args (initial w) in
  match retrieval requests_get (os_filter args) (limit args) w with
  | inl e =>
      snd out = Exit 1
      /\ exit_status (snd out) <> 0%Z
      /\ stdout (fst out) = []
      /\ stderr (fst out)
         = (if debug args then [Starting] else []) ++ [QueryFailed e]
  | inr raw =>
      snd out = Ret tt
      /\ exit_status (snd out) = 0%Z
      /\ exists s2 kept doc,
           filter_loop gethostbyname (debug args) raw []
             (logged (debug args) (Retrieved (length raw))
                (set_world
                   (world_after_request requests_get (os_filter args)
                      (limit args) w)
                   (logged (debug args) Starting (initial w))))
           = (s2, Ret kept)
           /\ sublist kept raw
           /\ Forall (fun r => ignore_host r = false /\ is_Some (r !! "name")) kept
           /\ (forall lookup,
                 (forall w0 q, gethostbyname w0 q = (w0, lookup q)) ->
                 kept = List.filter (kept_by lookup) raw)
           /\ inventory_of kept = inr doc
           /\ stdout (fst out) = [doc]
  end.
Proof.
  cbv zeta. pose proof (main_run_detail args w) as H. cbv zeta in H.
  destruct (retrieval requests_get (os_filter args) (limit args) w) as [e|raw].
  - rewrite H. cbn [fst snd exit_status add_stderr set_world stdout stderr].
    rewrite stdout_logged, stderr_logged. cbn [initial stdout stderr app].
    repeat split. discriminate.
  - destruct H as (s2 & kept & doc & s' & E & Hdoc & Em & _ & Hout & _).
    rewrite Em. cbn [fst snd exit_status]. split; [reflexivity|].
    split; [reflexivity|]. exists s2, kept, doc.
    split; [exact E|].
    set (s1 := logged (debug args) (Retrieved (length raw))
                 (set_world
                    (world_after_request requests_get (os_filter args)
                       (limit args) w)
                    (logged (debug args) Starting (initial w)))) in *.
    destruct (filter_loop_run gethostbyname (debug args) raw [] s1)
      as (s2' & kept' & E' & Hsub & Hkept & _).
    rewrite E in E'. cbn [app] in E'. injection E' as _ <-.
    split; [exact Hsub|]. split; [exact Hkept|]. split; [|auto].
    intros lookup Hpure.
    destruct (filter_loop_stateless lookup (debug args) raw [] s1 Hpure)
      as (s2'' & E'' & _).
    rewrite E in E''. cbn [app] in E''. injection E'' as _ ->. reflexivity.
Qed.

(** X6. Without [--debug] the diagnostic stream carries nothing on a
    successful run and only the error line on a failed retrieval. *)
Theorem main_quiet_without_debug (lim : Z) (osf : string) w :
  stderr (fst (main gethostbyname requests_get
                 {| debug := false; limit := lim; os_filter := osf |}
                 (initial w)))
  = match retrieval requests_get osf lim w with
    | inl e => [QueryFailed e]
    | inr _ => []
    end.
Proof.
  pose proof (main_run_detail
                {| debug := false; limit := lim; os_filter := osf |} w) as H.
  cbv zeta in H. cbn [debug limit os_filter] in H.
  destruct (retrieval requests_get osf lim w) as [e|raw].
  - rewrite H. reflexivity.
  - destruct H as (s2 & kept & doc & s' & E & _ & Em & _ & _ & Herr).
    rewrite Em. cbn [fst]. rewrite Herr, app_nil_r.
    destruct (filter_loop_trace false raw [] 
                (logged false (Retrieved (length raw))
                   (set_world (world_after_request requests_get osf lim w)
                      (logged false Starting (initial w)))))
      as (s2' & kept' & lines & E' & Herr' & Hquiet & _).
    rewrite E in E'. injection E' as -> _.
    rewrite Herr', Hquiet by reflexivity. reflexivity.
Qed.


(** X8. The [--debug] flag changes the diagnostic stream only: the exit
    outcome, the primary stream and the environment at the end are the
    same with and without it. *)
Theorem main_output_independent_of_debug (d1 d2 : bool) (lim : Z)
    (osf : string) w :
  let out1 := main gethostbyname requests_get
                {| debug := d1; limit := lim; os_filter := osf |}
                (initial w) in
  let out2 := main gethostbyname requests_get
                {| debug := d2; limit := lim; os_filter := osf |}
                (initial w) in
  snd out1 = snd out2
  /\ stdout (fst out1) = stdout (fst out2)
  /\ world (fst out1) = world (fst out2).
Proof.
  cbv zeta.
  pose proof (main_run_detail
                {| debug := d1; limit := lim; os_filter := osf |} w) as H1.
  pose proof (main_run_detail
                {| debug := d2; limit := lim; os_filter := osf |} w) as H2.
  cbv zeta in H1, H2. cbn [debug limit os_filter] in H1, H2.
  destruct (retrieval requests_get osf lim w) as [e|raw].
  - rewrite H1, H2. cbn [fst snd add_stderr set_world stdout world].
    rewrite !stdout_logged. auto.
  - destruct H1 as (s2 & kept & doc & s' & E & Hdoc & Em & Hw & Hout & _).
    destruct H2 as (t2 & kept' & doc' & t' & F & Hdoc' & Fm & Hw' & Hout' & _).
    rewrite Em, Fm. cbn [fst snd].
    match type of E with
    | filter_loop _ _ _ _ ?a = _ =>
        match type of F with
        | filter_loop _ _ _ _ ?b = _ =>
            assert (world a = world b) as Hw0
              by (rewrite !world_logged; reflexivity)
        end
    end.
    destruct (filter_loop_debug_irrelevant _ _ _ _ _ _ _ _ _ _ Hw0 E F) as [Hk Hws].
    injection Hk as <-. rewrite Hdoc in Hdoc'. injection Hdoc' as <-.
    rewrite Hout, Hout', Hw, Hw'. auto.
Qed.

(** X9. With a resolver whose answer depends on the name only, the
    document printed is the inventory of the retrieved records that are
    not ignored and whose qualified name resolves, in retrieval order. *)
Theorem main_with_stateless_resolver (lookup : string -> exn + string)
    (args : Args) w (raw : list HostRecord) :
  (forall w0 q, gethostbyname w0 q = (w0, lookup q)) ->
  retrieval requests_get (os_filter args) (limit args) w = inr raw ->
  exists doc,
    inventory_of (List.filter (kept_by lookup) raw) = inr doc
    /\ stdout (fst (main gethostbyname requests_get args (initial w))) = [doc]
    /\ snd (main gethostbyname requests_get args (initial w)) = Ret tt.
Proof.
  intros Hpure Hraw. pose proof (main_run_detail args w) as H.
  cbv zeta in H. rewrite Hraw in H.
  destruct H as (s2 & kept & doc & s' & E & Hdoc & Em & _ & Hout & _).
  destruct (filter_loop_stateless lookup (debug args) raw []
              (logged (debug args) (Retrieved (length raw))
                 (set_world (world_after_request requests_get (os_filter args)
                               (limit args) w)
                    (logged (debug args) Starting (initial w)))) Hpure)
    as (s2' & E' & _).
  rewrite E in E'. injection E' as _ ->.
  exists doc. rewrite Em. auto.
Qed.

(** X10. A record that is ignored or has no name causes no lookup: a
    batch of such records leaves the environment as it is and keeps
    none of them. *)
Theorem filter_loop_no_lookup_for_ignored_or_nameless (debug : bool)
    (raw filtered : list HostRecord) s :
  Forall (fun r => ignore_host r = true \/ r !! "name" = None) raw ->
  exists s',
    filter_loop gethostbyname debug raw filtered s = (s', Ret filtered)
    /\ world s' = world s.
Proof.
  revert s. induction raw as [|rec rest IH]; intros s Hraw.
  - exists s. auto.
  - apply Forall_cons in Hraw as [Hrec Hrest]. cbn [filter_loop].
    destruct (ignore_host rec) eqn:Hign.
    + rewrite bind_debug_print.
      destruct (IH (logged debug (Ignoring (rec !! "name")) s) Hrest) as (s' & E & Hw).
      exists s'. rewrite E, Hw, world_logged. auto.
    + destruct Hrec as [Hrec|Hname]; [discriminate|].
      unfold bind at 1. rewrite resolve_dns_run, Hname. cbn [qualify valid negb].
      rewrite bind_debug_print.
      destruct (IH (logged debug (Dropping None) s) Hrest) as (s' & E & Hw).
      exists s'. rewrite E, Hw, world_logged. auto.
Qed.

(** X11. Denied names and groups never reach the output: in a printed
    document every key is ["all"] or a non-empty group whose lower-cased
    form is not in [IGNORE_GROUPS], and no hostname has a lower-cased
    form in [IGNORE_HOSTS]; that is, no key and no hostname matches a
    denied word, whatever the case of its letters. *)
Theorem main_denied_never_listed (args : Args) w (doc : Document)
    (g : string) (hs : list string) :
  In doc (stdout (fst (main gethostbyname requests_get args (initial w)))) ->
  In (g, hs) doc ->
  (g = "all"
   \/ (g <> "" /\ ~ In (PyStr.lower g) IGNORE_GROUPS
       /\ denied_caseless g IGNORE_GROUPS = false))
  /\ (forall n, In n hs ->
                ~ In (PyStr.lower n) IGNORE_HOSTS
                /\ denied_caseless n IGNORE_HOSTS = false).
Proof.
  intros Hdoc Hg. pose proof (main_run gethostbyname requests_get args w) as H.
  destruct denied_words_plain as [Hhosts Hgroups].
  assert (forall x l, forallb plain_word l = true -> ~ In (PyStr.lower x) l ->
                      denied_caseless x l = false) as Hpin.
  { intros x l Hl Hnot. destruct (denied_caseless x l) eqn:E; [|reflexivity].
    apply lower_in_plain_words in E; [contradiction | exact Hl]. }
  destruct (retrieval requests_get (os_filter args) (limit args) w) as [e|raw].
  - destruct H as (s' & E & Hout & _). rewrite E in Hdoc. simpl in Hdoc.
    rewrite Hout in Hdoc. destruct Hdoc.
  - destruct H as (s' & filtered & doc' & E & Hout & _ & Hkept & Hinv).
    rewrite E in Hdoc. simpl in Hdoc. rewrite Hout in Hdoc.
    destruct Hdoc as [<-|[]]. rewrite Forall_forall in Hkept. split.
    + destruct (inventory_of_keys filtered doc' Hinv) as (_ & _ & Hkeys).
      assert (In g (dict_keys doc')) as Hin
        by (unfold dict_keys; apply (in_map fst) in Hg; exact Hg).
      apply Hkeys in Hin as [->|(h & Hh & Hgh)]; [auto|]. right.
      apply list_elem_of_In, Hkept in Hh as [Hign _].
      apply ignore_host_false_inv in Hign as (_ & Hgrp & Hne).
      unfold group_of in Hgh. unfold get_or_empty in Hgrp, Hne.
      rewrite Hgh in Hgrp, Hne. simpl in Hgrp, Hne. auto.
    + intros n Hn.
      destruct (inventory_of_names filtered doc' Hinv g hs n Hg Hn) as (r & Hr & Hname).
      apply list_elem_of_In, Hkept in Hr as [Hign _].
      apply ignore_host_false_inv in Hign as (Hnm & _).
      unfold get_or_empty in Hnm. rewrite Hname in Hnm. simpl in Hnm. auto.
Qed.

(** X12. An answer without a ["result"] entry counts as no records: the
    run succeeds and prints the document with the empty ["all"] group
    alone. *)
Theorem main_answer_without_result (args : Args) w (response : Response) :
  (forall url, snd (requests_get w url) = inr response) ->
  status_error response = None ->
  json_result response = inr None ->
  main_outcome_is gethostbyname requests_get args w (Ret tt) [[("all", [])]].
Proof.
  intros Hget Hstatus Hjson. unfold main_outcome_is.
  pose proof (main_run gethostbyname requests_get args w) as H.
  unfold retrieval in H. cbv zeta in H. rewrite Hget, Hstatus, Hjson in H.
  destruct H as (s' & filtered & doc & E & Hout & Hsub & _ & Hinv).
  apply sublist_nil_r in Hsub. subst filtered.
  vm_compute in Hinv. injection Hinv as <-.
  rewrite E. auto.
Qed.

(** X13. The status of the answer is checked before its body is read: an
    answer with an error status ends the run with status 1 and that
    error on the diagnostic stream, and nothing is printed, whatever the
    body holds. *)
Theorem main_error_status_is_fatal (args : Args) w (response : Response)
    (e : exn) :
  (forall url, snd (requests_get w url) = inr response) ->
  status_error response = Some e ->
  main_outcome_is gethostbyname requests_get args w (Exit 1) []
  /\ last (stderr (fst (main gethostbyname requests_get args (initial w))))
     = Some (QueryFailed e).
Proof.
  intros Hget Hstatus. unfold main_outcome_is.
  pose proof (main_run gethostbyname requests_get args w) as H.
  unfold retrieval in H. cbv zeta in H. rewrite Hget, Hstatus in H.
  destruct H as (s' & E & Hout & Herr).
  rewrite E. cbn [fst snd]. rewrite Herr, last_snoc. auto.
Qed.

(** X14. When a name is given, the hostname returned by [resolve_dns] has
    a dot, so resolving the returned hostname again looks up the same
    name whatever the default domain is. *)
Theorem resolve_dns_hostname_is_dotted (h domain : string) s :
  exists s' r q,
    resolve_dns gethostbyname (Some h) domain s = (s', Ret r)
    /\ hostname r = Some q
    /\ PyStr.contains "." q = true
    /\ (forall domain', qualify (Some q) domain' = inr q).
Proof.
  assert (exists q, qualify (Some h) domain = inr q /\ PyStr.contains "." q = true)
    as (q & Hq & Hdot).
  { cbn [qualify]. destruct (PyStr.contains "." h) eqn:E; cbn [negb]; eauto.
    eexists. split; [reflexivity|]. apply contains_append_dot. }
  rewrite resolve_dns_run, Hq.
  destruct (gethostbyname (world s) q) as [w' [e|addr]];
    eexists _, _, q; (split; [reflexivity|]); (split; [reflexivity|]);
    (split; [exact Hdot|]); intros domain'; cbn [qualify]; rewrite Hdot;
    reflexivity.
Qed.

End ProgramMore.

(** ** The filter reads two fields, without regard to case *)

(** X15. The verdict of [ignore_host] depends on the name and the group
    only, and not on their letter case: any other attribute of the
    record can be set or changed without effect, and two spellings of a
    name or of a group in the ASCII range that differ only in the case
    of their letters get the same verdict. *)
Theorem ignore_host_reads_two_fields_caseless :
  (forall (h : HostRecord) (k v : string),
     k <> "name" -> k <> "u_patching_group" ->
     ignore_host (<[k := v]> h) = ignore_host h)
  /\ (forall (h : HostRecord) (n n' g g' : string),
        ascii_only n = true -> ascii_only n' = true ->
        ascii_only g = true -> ascii_only g' = true ->
        ascii_fold n = ascii_fold n' -> ascii_fold g = ascii_fold g' ->
        ignore_host (<["name" := n]> (<["u_patching_group" := g]> h))
        = ignore_host (<["name" := n']> (<["u_patching_group" := g']> h))).
Proof.
  split.
  - intros h k v Hn Hg. unfold ignore_host, get_or_empty.
    rewrite !lookup_insert_ne by congruence. reflexivity.
  - intros h n n' g g' Hn Hn' Hg Hg' En Eg.
    unfold ignore_host, get_or_empty. cbv zeta.
    rewrite !lookup_insert_eq.
    rewrite !(lookup_insert_ne _ "name" "u_patching_group") by discriminate.
    rewrite !lookup_insert_eq. unfold default, id.
    rewrite !lower_ascii_only by assumption. rewrite En, Eg. reflexivity.
Qed.

(** ** Instances of the further conditional statements *)

Lemma distribute_hosts_allocates_one_list_per_group_witness :
  Forall well_formed sample_records
  /\ exists d news,
       distribute_hosts sample_records [["kept"]] = inr (d, [["kept"]] ++ news)
       /\ NoDup (map snd d)
       /\ Forall (fun l => length [["kept"]] <= l < length [["kept"]] + length news)
            (map snd d)
       /\ length news = length d.
Proof.
  split; [exact sample_records_well_formed|].
  exact (distribute_hosts_allocates_one_list_per_group sample_records [["kept"]]
           sample_records_well_formed).
Defined.

Lemma build_ansible_inventory_shares_group_lists_witness :
  build_ansible_inventory [("web", 0); ("db", 1)] [["w1"; "w2"]; ["d1"]]
  = inr ([("all", {| hosts := 2 |}); ("web", {| hosts := 0 |});
          ("db", {| hosts := 1 |})],
         [["w1"; "w2"]; ["d1"]; ["w1"; "w2"; "d1"]]).
Proof.
  apply (build_ansible_inventory_shares_group_lists
           [("web", 0); ("db", 1)] [["w1"; "w2"]; ["d1"]]).
  - split; simpl.
    + apply (bool_decide_unpack _). vm_compute. exact I.
    + repeat constructor.
  - apply (bool_decide_unpack _). vm_compute. exact I.
  - simpl. intros [H|[H|[]]]; discriminate.
Defined.

Lemma inventory_keys_all_first_and_distinct_witness :
  let doc := [("all", ["a1"; "a1"]); ("web", ["w1"])] in
  hd_error (dict_keys doc) = Some "all"
  /\ NoDup (dict_keys doc)
  /\ (forall g, In g (dict_keys doc)
                <-> g = "all"
                    \/ exists h, In h [mk_host "w1" "web"; mk_host "a1" "all"]
                                 /\ group_of h = Some g).
Proof.
  apply (inventory_keys_all_first_and_distinct
           [mk_host "w1" "web"; mk_host "a1" "all"]
           [("all", ["a1"; "a1"]); ("web", ["w1"])]).
  vm_compute. reflexivity.
Defined.

Lemma all_hosts_rearranges_record_names_witness :
  exists doc,
    inventory_of sample_records = inr doc
    /\ Permutation (all_hosts_of doc) (omap name_of sample_records)
    /\ length (all_hosts_of doc) = length sample_records.
Proof.
  exact (all_hosts_rearranges_record_names sample_records
           sample_records_well_formed sample_records_no_all).
Defined.

Lemma main_with_stateless_resolver_witness :
  exists doc,
    inventory_of (List.filter (kept_by sample_lookup) sample_raw) = inr doc
    /\ stdout (fst (main sample_gethostbyname sample_requests_get sample_args
                      (initial tt))) = [doc]
    /\ snd (main sample_gethostbyname sample_requests_get sample_args
              (initial tt)) = Ret tt.
Proof.
  apply (main_with_stateless_resolver sample_gethostbyname sample_requests_get
           sample_lookup sample_args tt sample_raw).
  - intros w0 q. reflexivity.
  - vm_compute. reflexivity.
Defined.

Lemma filter_loop_no_lookup_for_ignored_or_nameless_witness :
  exists s',
    filter_loop sample_gethostbyname true
      [mk_host "drhost01" "webservers"; {[ "u_patching_group" := "webservers" ]}]
      [] (initial tt)
    = (s', Ret [])
    /\ world s' = world (initial tt).
Proof.
  apply (filter_loop_no_lookup_for_ignored_or_nameless sample_gethostbyname true
           [mk_host "drhost01" "webservers"; {[ "u_patching_group" := "webservers" ]}]
           [] (initial tt)).
  constructor; [left; vm_compute; reflexivity|].
  constructor; [right; vm_compute; reflexivity|]. constructor.
Defined.

Lemma main_denied_never_listed_witness :
  ("webservers" = "all"
   \/ ("webservers" <> "" /\ ~ In (PyStr.lower "webservers") IGNORE_GROUPS
       /\ denied_caseless "webservers" IGNORE_GROUPS = false))
  /\ (forall n, In n ["web01"] ->
                ~ In (PyStr.lower n) IGNORE_HOSTS
                /\ denied_caseless n IGNORE_HOSTS = false).
Proof.
  apply (main_denied_never_listed sample_gethostbyname sample_requests_get
           sample_args tt
           [("all", ["web01"; "db01"]); ("webservers", ["web01"]);
            ("dbteam", ["db01"])]
           "webservers" ["web01"]).
  - vm_compute. left. reflexivity.
  - simpl. auto.
Defined.

Lemma main_answer_without_result_witness :
  main_outcome_is sample_gethostbyname no_result_requests_get sample_args tt
    (Ret tt) [[("all", [])]].
Proof.
  apply (main_answer_without_result sample_gethostbyname no_result_requests_get
           sample_args tt
           {| status_error := None; json_result := inr None |}).
  - intros url. reflexivity.
  - reflexivity.
  - reflexivity.
Defined.

Lemma main_error_status_is_fatal_witness :
  main_outcome_is sample_gethostbyname bad_status_requests_get sample_args tt
    (Exit 1) []
  /\ last (stderr (fst (main sample_gethostbyname bad_status_requests_get
                          sample_args (initial tt))))
     = Some (QueryFailed (Failure "401 Client Error")).
Proof.
  apply (main_error_status_is_fatal sample_gethostbyname bad_status_requests_get
           sample_args tt
           {| status_error := Some (Failure "401 Client Error");
              json_result := inr (Some sample_raw) |}).
  - intros url. reflexivity.
  - reflexivity.
Defined.
